(** * Kimi-Free-API: the Connect RPC chat controller (V2)

    A shallow embedding of [src/api/controllers/chat-v2.ts] and the
    properties of its credential handling, scenario resolution, completion
    assembly and streaming loop.

    Conventions of the embedding.
    - A JavaScript string is a sequence of code units; here it is a Rocq
      [string], so a code unit is one octet.  This is exactly what Node
      delivers for HTTP header values (Latin-1), and every literal of the
      controller is ASCII.
    - [any]-typed data (JSON payloads, request messages) is a [JSValue].
    - A JavaScript exception is the [Throw] branch of [Result]; [try/catch]
      is [try_catch].
    - Code with effects on collaborators (logger, RPC client, uuid and clock
      utilities) lives in the monad [M], a state-and-exception monad over
      [World], which records every collaborator interaction. *)

From Stdlib Require Import String Ascii List ZArith NArith Lia Bool DecimalString.
From stdpp Require Import base option list gmap strings.
Import ListNotations.

(** ** JavaScript strings *)

Module JSString.

(** [s.startsWith(p)] *)
Fixpoint startsWith (s p : string) {struct p} : bool :=
  match p, s with
  | EmptyString, _ => true
  | String _ _, EmptyString => false
  | String b p', String a s' => if Ascii.eqb a b then startsWith s' p' else false
  end.

(** [s.includes(t)]: some position of [s] carries [t]. *)
Fixpoint includes (s t : string) : bool :=
  startsWith s t ||
  match s with
  | EmptyString => false
  | String _ s' => includes s' t
  end.

(** [s.split(sep)] for a separator of one code unit. *)
Fixpoint split (sep : ascii) (s : string) : list string :=
  match s with
  | EmptyString => [EmptyString]
  | String c s' =>
      if Ascii.eqb c sep then EmptyString :: split sep s'
      else match split sep s' with
           | seg :: rest => String c seg :: rest
           | [] => [String c EmptyString]
           end
  end.

(** The WhiteSpace and LineTerminator code units below U+0100:
    TAB, LF, VT, FF, CR, SP and NBSP.  Both [\s] and [trim] use this set. *)
Definition is_white_space (c : ascii) : bool :=
  match N_of_ascii c with
  | 9 | 10 | 11 | 12 | 13 | 32 | 160 => true
  | _ => false
  end%N.

(** [s.trimStart()] *)
Fixpoint trimStart (s : string) : string :=
  match s with
  | EmptyString => EmptyString
  | String c s' => if is_white_space c then trimStart s' else s
  end.

(** [s.trimEnd()] *)
Fixpoint trimEnd (s : string) : string :=
  match s with
  | EmptyString => EmptyString
  | String c s' =>
      match trimEnd s' with
      | EmptyString => if is_white_space c then EmptyString else String c EmptyString
      | r => String c r
      end
  end.

(** [s.trim()] *)
Definition trim (s : string) : string := trimEnd (trimStart s).

(** Canonicalisation of the [i] flag on one code unit.  Below U+0100 no
    code unit other than the two ASCII cases of a letter canonicalises to
    that letter, so against an ASCII pattern letter only [a-z] matter. *)
Definition canonicalize (c : ascii) : ascii :=
  let n := N_of_ascii c in
  if ((97 <=? n) && (n <=? 122))%N then ascii_of_N (n - 32) else c.

(** Matching a literal at the start of [s] under the [i] flag; the result
    is what follows the match. *)
Fixpoint match_literal_i (lit s : string) {struct lit} : option string :=
  match lit, s with
  | EmptyString, _ => Some s
  | String _ _, EmptyString => None
  | String p lit', String c s' =>
      if Ascii.eqb (canonicalize c) (canonicalize p)
      then match_literal_i lit' s' else None
  end.

(** [s.replace(/^Bearer\s+/i, '')]: the pattern is anchored, the
    quantifier greedy and nothing follows it, so a match removes
    the word and the whole run of white space after it. *)
Definition replace_bearer_prefix (s : string) : string :=
  match match_literal_i "Bearer" s with
  | Some (String c rest) => if is_white_space c then trimStart rest else s
  | _ => s
  end.

(** [parts.join(sep)] on strings. *)
Fixpoint join (sep : string) (parts : list string) : string :=
  match parts with
  | [] => EmptyString
  | [p] => p
  | p :: rest => p +:+ sep +:+ join sep rest
  end.

(** JavaScript truthiness of a string. *)
Definition truthy (s : string) : bool :=
  match s with EmptyString => false | _ => true end.

End JSString.

(** "[s] contains the substring [t]", in the words of the specification. *)
Definition Contains (s t : string) : Prop :=
  exists pre post : string, s = pre +:+ t +:+ post.

(** ** Scenario resolution *)

Inductive Scenario :=
| SCENARIO_K2 | SCENARIO_SEARCH | SCENARIO_RESEARCH | SCENARIO_K1.

Record ScenarioSelection := { scenario : Scenario; thinking : bool }.

Definition resolveScenario (model : string) : ScenarioSelection :=
  let thinking := JSString.includes model "thinking" in
  if JSString.includes model "k2.5" then
    {| scenario := SCENARIO_K2; thinking := thinking |}
  else if JSString.includes model "search" then
    {| scenario := SCENARIO_SEARCH; thinking := thinking |}
  else if JSString.includes model "research" then
    {| scenario := SCENARIO_RESEARCH; thinking := thinking |}
  else if JSString.includes model "k1" then
    {| scenario := SCENARIO_K1; thinking := thinking |}
  else
    {| scenario := SCENARIO_K2; thinking := thinking |}.

(** The priority table of the specification: the first rule whose substring
    occurs in the model name decides. *)
Inductive first_match (model : string) : Scenario -> Prop :=
| fm_k25 :
    Contains model "k2.5" -> first_match model SCENARIO_K2
| fm_search :
    ~ Contains model "k2.5" -> Contains model "search" ->
    first_match model SCENARIO_SEARCH
| fm_research :
    ~ Contains model "k2.5" -> ~ Contains model "search" ->
    Contains model "research" -> first_match model SCENARIO_RESEARCH
| fm_k1 :
    ~ Contains model "k2.5" -> ~ Contains model "search" ->
    ~ Contains model "research" -> Contains model "k1" ->
    first_match model SCENARIO_K1
| fm_default :
    ~ Contains model "k2.5" -> ~ Contains model "search" ->
    ~ Contains model "research" -> ~ Contains model "k1" ->
    first_match model SCENARIO_K2.

(** ** JavaScript values, exceptions and the runtime *)

(** A value of type [any].  [JNumber m e] is the decimal value [m * 10^e] of
    a numeric literal; its rounding to a double is not modelled, and no
    function of the controller inspects one.  [JBuiltin] is a method found
    on a prototype. *)
#[warnings="-register-all"] Inductive JSValue :=
| JUndefined
| JNull
| JBool (b : bool)
| JNumber (mantissa exponent : Z)
| JString (s : string)
| JArray (items : list JSValue)
| JObject (fields : list (string * JSValue))
| JBuiltin (name : string).

(** [EX.API_REQUEST_FAILED], the one code of [@/api/consts/exceptions.ts]
    that the controller uses. *)
Inductive ExceptionCode := API_REQUEST_FAILED.

Inductive Exception :=
| SyntaxError
| TypeError
| APIException (code : ExceptionCode) (message : string)
| CollaboratorError (detail : string).

Inductive Result (A : Type) :=
| Ok (value : A)
| Throw (e : Exception).
Arguments Ok {A} value.
Arguments Throw {A} e.

#[global] Instance Result_ret : MRet Result := fun A => @Ok A.
#[global] Instance Result_bind : MBind Result := fun A B f r =>
  match r with
  | Ok a => f a
  | Throw e => Throw e
  end.

(** [try { body } catch (e) { handler }] *)
Definition try_catch {A : Type} (body : Result A)
    (handler : Exception -> Result A) : Result A :=
  match body with
  | Ok a => Ok a
  | Throw e => handler e
  end.

(** The parts of the Node runtime the controller calls and this file does
    not define: base64 decoding of a [Buffer] followed by [toString()],
    [JSON.parse] ([None] stands for its [SyntaxError]) and the [ToString]
    conversion that [Array.prototype.join] applies to an element that is
    neither a string nor [undefined] nor [null].  The conversion can raise:
    an object whose own [toString] is not callable has no primitive value,
    and [ToString] answers it with a [TypeError]. *)
Class Platform := {
  Buffer_base64_toString : string -> string;
  JSON_parse : string -> option JSValue;
  ToString : JSValue -> Result string
}.

(** The property names the controller reads. *)
Inductive PropertyName :=
| P_app_id | P_typ | P_device_id | P_ssid | P_sub
| P_content | P_type | P_text.

Definition property_key (p : PropertyName) : string :=
  match p with
  | P_app_id => "app_id"
  | P_typ => "typ"
  | P_device_id => "device_id"
  | P_ssid => "ssid"
  | P_sub => "sub"
  | P_content => "content"
  | P_type => "type"
  | P_text => "text"
  end.

Fixpoint own_property (key : string) (fields : list (string * JSValue))
    : option JSValue :=
  match fields with
  | [] => None
  | (k, v) :: rest => if String.eqb k key then Some v else own_property key rest
  end.

(** [v.p] for one of the names above.  Reading a property of [undefined] or
    [null] is a [TypeError].  Of the eight names only [sub] exists on a
    prototype ([String.prototype.sub]); every other miss is [undefined]. *)
Definition get_property (v : JSValue) (p : PropertyName) : Result JSValue :=
  match v with
  | JUndefined | JNull => Throw TypeError
  | JObject fields =>
      Ok (default JUndefined (own_property (property_key p) fields))
  | JString _ =>
      match p with
      | P_sub => Ok (JBuiltin "String.prototype.sub")
      | _ => Ok JUndefined
      end
  | _ => Ok JUndefined
  end.

(** [v === lit] for a string literal. *)
Definition strict_equals_string (v : JSValue) (lit : string) : bool :=
  match v with
  | JString s => String.eqb s lit
  | _ => false
  end.

(** [Buffer.from(x, 'base64').toString()], where [x] may be [undefined]
    (a [TypeError]). *)
Definition Buffer_from_base64_toString `{Platform} (x : option string)
    : Result string :=
  match x with
  | Some s => Ok (Buffer_base64_toString s)
  | None => Throw TypeError
  end.

Definition JSON_parse_throwing `{Platform} (text : string) : Result JSValue :=
  match JSON_parse text with
  | Some v => Ok v
  | None => Throw SyntaxError
  end.

(** ** Credential classification and claims *)

Inductive TokenType := jwt | refresh.

(** The [try] block either returns from the function ([Some]) or falls
    through to the final [return 'refresh'] ([None]). *)
Definition detectTokenType `{Platform} (token : string) : Result TokenType :=
  returned ←
    (if JSString.startsWith token "eyJ"
        && Nat.eqb (length (JSString.split "." token)) 3
     then
       try_catch
         (text ← Buffer_from_base64_toString (JSString.split "." token !! 1);
          payload ← JSON_parse_throwing text;
          app ← get_property payload P_app_id;
          if strict_equals_string app "kimi" then
            ty ← get_property payload P_typ;
            if strict_equals_string ty "access" then Ok (Some jwt) else Ok None
          else Ok None)
         (fun _ => Ok None)
     else Ok None);
  match returned with
  | Some t => Ok t
  | None => Ok refresh
  end.

Definition extractDeviceIdFromJWT `{Platform} (token : string) : Result JSValue :=
  try_catch
    (text ← Buffer_from_base64_toString (JSString.split "." token !! 1);
     payload ← JSON_parse_throwing text;
     get_property payload P_device_id)
    (fun _ => Ok JUndefined).

Definition extractSessionIdFromJWT `{Platform} (token : string) : Result JSValue :=
  try_catch
    (text ← Buffer_from_base64_toString (JSString.split "." token !! 1);
     payload ← JSON_parse_throwing text;
     get_property payload P_ssid)
    (fun _ => Ok JUndefined).

Definition extractUserIdFromJWT `{Platform} (token : string) : Result JSValue :=
  try_catch
    (text ← Buffer_from_base64_toString (JSString.split "." token !! 1);
     payload ← JSON_parse_throwing text;
     get_property payload P_sub)
    (fun _ => Ok JUndefined).

(** ** Collaborators and the world *)

(** What the controller tells the console and the logger. *)
Inductive LogEntry :=
| Console_headers (headers : gmap string string)
| Console_value (label : string) (value : option string)
| Logger_info_model (streaming : bool) (model : string)
| Logger_info_scenario (model : string) (selection : ScenarioSelection)
| Logger_error (e : Exception).

(** [ConnectConfig] of [@/lib/connect-rpc/types.ts], as the controller
    fills it. *)
Record ConnectConfig := {
  baseUrl : string;
  authToken : string;
  deviceId : JSValue;
  sessionId : JSValue;
  userId : JSValue
}.

Record ChatOptions := { option_scenario : Scenario; option_thinking : bool }.

(** What [client.chatText] resolves to: the fields the controller reads. *)
Record ChatTextResponse := { chatId : option string; response_text : string }.

(** A message of [client.chat]: the fields the controller reads, with the
    optional chaining of [msg.block?.text?.content] in the types. *)
Record TextBlock := { content : string }.
Record Block := { block_text : option TextBlock }.
Record ConnectMessage := { block : option Block; done : bool }.

Inductive RpcCall :=
| Call_chatText (config : ConnectConfig) (message : string) (options : ChatOptions)
| Call_chat (config : ConnectConfig) (message : string) (options : ChatOptions).

(** Every interaction of one request with its collaborators. *)
Record World := {
  log : list LogEntry;
  rpc_clients : list ConnectConfig;
  rpc_calls : list RpcCall;
  events_consumed : nat;
  uuids_drawn : nat;
  clock_reads : nat
}.

Definition initial_world : World :=
  {| log := []; rpc_clients := []; rpc_calls := []; events_consumed := 0;
     uuids_drawn := 0; clock_reads := 0 |}.

(** The collaborators themselves: the RPC client of [@/lib/connect-rpc]
    (a rejected promise is a [Throw]) and [util.uuid], [util.unixTimestamp]
    of [@/lib/util.ts], indexed by the number of earlier calls. *)
Class Collaborators := {
  rpc_chatText : ConnectConfig -> string -> ChatOptions -> Result ChatTextResponse;
  rpc_chat : ConnectConfig -> string -> ChatOptions -> Result (list ConnectMessage);
  util_uuid : nat -> string;
  util_unixTimestamp : nat -> Z
}.

Definition M (A : Type) : Type := World -> Result A * World.

#[global] Instance M_ret : MRet M := fun A a w => (Ok a, w).
#[global] Instance M_bind : MBind M := fun A B f m w =>
  match m w with
  | (Ok a, w') => f a w'
  | (Throw e, w') => (Throw e, w')
  end.

Definition lift {A : Type} (r : Result A) : M A := fun w => (r, w).
Definition throw {A : Type} (e : Exception) : M A := fun w => (Throw e, w).

Definition try_catch_M {A : Type} (body : M A) (handler : Exception -> M A) : M A :=
  fun w =>
    match body w with
    | (Ok a, w') => (Ok a, w')
    | (Throw e, w') => handler e w'
    end.

Definition write_log (entry : LogEntry) : M unit := fun w =>
  (Ok tt,
   {| log := log w ++ [entry]; rpc_clients := rpc_clients w;
      rpc_calls := rpc_calls w; events_consumed := events_consumed w;
      uuids_drawn := uuids_drawn w; clock_reads := clock_reads w |}).

(** [new ConnectRPCClient(config)] *)
Definition new_ConnectRPCClient (config : ConnectConfig) : M ConnectConfig := fun w =>
  (Ok config,
   {| log := log w; rpc_clients := rpc_clients w ++ [config];
      rpc_calls := rpc_calls w; events_consumed := events_consumed w;
      uuids_drawn := uuids_drawn w; clock_reads := clock_reads w |}).

Definition record_call (call : RpcCall) : M unit := fun w =>
  (Ok tt,
   {| log := log w; rpc_clients := rpc_clients w;
      rpc_calls := rpc_calls w ++ [call]; events_consumed := events_consumed w;
      uuids_drawn := uuids_drawn w; clock_reads := clock_reads w |}).

(** [await client.chatText(message, options)] *)
Definition client_chatText `{Collaborators} (client : ConnectConfig)
    (message : string) (options : ChatOptions) : M ChatTextResponse :=
  record_call (Call_chatText client message options);;
  lift (rpc_chatText client message options).

(** [await client.chat(message, options)] *)
Definition client_chat `{Collaborators} (client : ConnectConfig)
    (message : string) (options : ChatOptions) : M (list ConnectMessage) :=
  record_call (Call_chat client message options);;
  lift (rpc_chat client message options).

(** One step of the iterator of [connectMessages]. *)
Definition consume_event : M unit := fun w =>
  (Ok tt,
   {| log := log w; rpc_clients := rpc_clients w; rpc_calls := rpc_calls w;
      events_consumed := S (events_consumed w);
      uuids_drawn := uuids_drawn w; clock_reads := clock_reads w |}).

(** [util.uuid()] *)
Definition uuid `{Collaborators} : M string := fun w =>
  (Ok (util_uuid (uuids_drawn w)),
   {| log := log w; rpc_clients := rpc_clients w; rpc_calls := rpc_calls w;
      events_consumed := events_consumed w;
      uuids_drawn := S (uuids_drawn w); clock_reads := clock_reads w |}).

(** [util.unixTimestamp()] *)
Definition unixTimestamp `{Collaborators} : M Z := fun w =>
  (Ok (util_unixTimestamp (clock_reads w)),
   {| log := log w; rpc_clients := rpc_clients w; rpc_calls := rpc_calls w;
      events_consumed := events_consumed w;
      uuids_drawn := uuids_drawn w; clock_reads := S (clock_reads w) |}).

(** ** Credential extraction from the request headers *)

(** Truthiness of a value that is a string or [undefined] (a header, a
    chat identifier, the content behind optional chaining): [undefined] and
    the empty string are falsy. *)
Definition truthy_optional (h : option string) : bool :=
  match h with
  | Some s => JSString.truthy s
  | None => false
  end.

Definition Missing_credential : Exception :=
  APIException API_REQUEST_FAILED "Missing Authorization header or x-goog-api-key".

Definition Invalid_credential_format : Exception :=
  APIException API_REQUEST_FAILED "Invalid Authorization header format".

(** [ctx.request.headers] is the header object of Node: lower-case names,
    string values. *)
Definition extractAuthToken (headers : gmap string string) : M string :=
  let authorization := headers !! "authorization" in
  let apiKey := headers !! "x-goog-api-key" in
  write_log (Console_headers headers);;
  write_log (Console_value "DEBUG: Auth header found:" authorization);;
  write_log (Console_value "DEBUG: API key found:" apiKey);;
  let tokenHeader :=
    if negb (truthy_optional authorization) && truthy_optional apiKey
    then (fun k => "Bearer " +:+ k) <$> apiKey
    else authorization in
  if negb (truthy_optional tokenHeader) then throw Missing_credential
  else
    let token :=
      JSString.trim
        (JSString.replace_bearer_prefix (default EmptyString tokenHeader)) in
    if negb (JSString.truthy token) then throw Invalid_credential_format
    else mret token.

(** ** Completion assembly *)

(** The callback of [filter], [item.type === 'text'], run over the array in
    order; a throwing callback ends the whole call. *)
Fixpoint filter_text_items (items : list JSValue) : Result (list JSValue) :=
  match items with
  | [] => Ok []
  | item :: rest =>
      ty ← get_property item P_type;
      kept ← filter_text_items rest;
      Ok (if strict_equals_string ty "text" then item :: kept else kept)
  end.

(** The callback of [map], [item.text]. *)
Fixpoint map_item_text (items : list JSValue) : Result (list JSValue) :=
  match items with
  | [] => Ok []
  | item :: rest =>
      t ← get_property item P_text;
      ts ← map_item_text rest;
      Ok (t :: ts)
  end.

(** What [join] makes of one element: nothing of [undefined] and [null],
    the [ToString] of anything else, which may raise. *)
Definition join_element `{Platform} (v : JSValue) : Result string :=
  match v with
  | JUndefined | JNull => Ok EmptyString
  | JString s => Ok s
  | _ => ToString v
  end.

(** The conversions of [join], element after element; the first one that
    raises ends the call. *)
Fixpoint join_elements `{Platform} (vs : list JSValue) : Result (list string) :=
  match vs with
  | [] => Ok []
  | v :: rest =>
      s ← join_element v;
      ss ← join_elements rest;
      Ok (s :: ss)
  end.

Definition newline : string := String (ascii_of_nat 10) EmptyString.

(** Lines 107-117 of [createCompletionV2], and again, word for word, lines
    215-225 of [createCompletionStreamV2]: the text of the last message.
    [messages[messages.length - 1]] of an empty array is [undefined]. *)
Definition lastMessageContent `{Platform} (messages : list JSValue) : Result string :=
  let lastMessage := default JUndefined (last messages) in
  c ← get_property lastMessage P_content;
  match c with
  | JString s => Ok s
  | JArray items =>
      kept ← filter_text_items items;
      texts ← map_item_text kept;
      strs ← join_elements texts;
      Ok (JSString.join newline strs)
  | _ => Ok EmptyString
  end.

Record Usage := {
  prompt_tokens : nat;
  completion_tokens : nat;
  total_tokens : nat
}.

Record AssistantMessage := { role : string; message_content : string }.

Record Choice := {
  index : nat;
  message : AssistantMessage;
  finish_reason : string
}.

Record CompletionResult := {
  completion_id : string;
  completion_model : string;
  completion_object : string;
  choices : list Choice;
  usage : Usage;
  created : Z
}.

Definition Unsupported_credential_type (guidance : string) : Exception :=
  APIException API_REQUEST_FAILED
    ("Connect RPC requires JWT token. Please extract kimi-auth from browser cookies." +:+ guidance).

Definition is_jwt (t : TokenType) : bool :=
  match t with jwt => true | refresh => false end.

Definition createCompletionV2 `{Platform} `{Collaborators}
    (model : string) (messages : list JSValue) (authToken : string)
    : M CompletionResult :=
  write_log (Logger_info_model false model);;
  tokenType ← lift (detectTokenType authToken);
  if negb (is_jwt tokenType) then
    throw (Unsupported_credential_type " See docs/CONNECT_RPC_CONFIG_GUIDE.md")
  else
    messageContent ← lift (lastMessageContent messages);
    deviceId ← lift (extractDeviceIdFromJWT authToken);
    sessionId ← lift (extractSessionIdFromJWT authToken);
    userId ← lift (extractUserIdFromJWT authToken);
    let config :=
      {| baseUrl := "https://www.kimi.com"; authToken := authToken;
         deviceId := deviceId; sessionId := sessionId; userId := userId |} in
    client ← new_ConnectRPCClient config;
    let selection := resolveScenario model in
    write_log (Logger_info_scenario model selection);;
    response ← client_chatText client messageContent
      {| option_scenario := scenario selection;
         option_thinking := thinking selection |};
    id ← (if truthy_optional (chatId response)
          then mret (default EmptyString (chatId response)) else uuid);
    created ← unixTimestamp;
    mret {| completion_id := id;
            completion_model := model;
            completion_object := "chat.completion";
            choices :=
              [ {| index := 0;
                   message := {| role := "assistant";
                                 message_content := response_text response |};
                   finish_reason := "stop" |} ];
            usage :=
              {| prompt_tokens := String.length messageContent;
                 completion_tokens := String.length (response_text response);
                 total_tokens := String.length messageContent
                                 + String.length (response_text response) |};
            created := created |}.

(** ** Stream assembly *)

(** [delta: { content }] or [delta: {}]. *)
Record Delta := { delta_content : option string }.

Record ChunkChoice := {
  chunk_index : nat;
  delta : Delta;
  chunk_finish_reason : option string
}.

Record Chunk := {
  chunk_id : string;
  chunk_object : string;
  chunk_created : Z;
  chunk_model : string;
  chunk_choices : list ChunkChoice
}.

(** What [stream.write] is given: [Frame_data c] is the text
    [data: ${JSON.stringify(c)}\n\n], [Frame_text] a literal. *)
Inductive Frame :=
| Frame_data (c : Chunk)
| Frame_text (raw : string).

Inductive StreamState :=
| Flowing
| Ended
| Destroyed (e : Exception).

(** The [PassThrough] the caller receives, seen from its writable side. *)
Record PassThrough := { written : list Frame; state : StreamState }.

Definition new_PassThrough : PassThrough := {| written := []; state := Flowing |}.

Definition stream_write (stream : PassThrough) (f : Frame) : PassThrough :=
  {| written := written stream ++ [f]; state := state stream |}.

Definition stream_end (stream : PassThrough) : PassThrough :=
  {| written := written stream; state := Ended |}.

Definition stream_destroy (stream : PassThrough) (e : Exception) : PassThrough :=
  {| written := written stream; state := Destroyed e |}.

Definition DONE_frame : Frame :=
  Frame_text ("data: [DONE]" +:+ newline +:+ newline).

(** The [for (const msg of connectMessages)] loop, lines 249-289; the
    [break] is the branch that does not recurse. *)
Section Loop.

Context `{Collaborators}.

Fixpoint for_of_connectMessages (model : string)
    (connectMessages : list ConnectMessage) (stream : PassThrough) : M PassThrough :=
  match connectMessages with
  | [] => mret stream
  | msg :: rest =>
      consume_event;;
      stream ←
        (if truthy_optional (content <$> (block msg ≫= block_text)) then
           id ← uuid;
           created ← unixTimestamp;
           let chunk :=
             {| chunk_id := id;
                chunk_object := "chat.completion.chunk";
                chunk_created := created;
                chunk_model := model;
                chunk_choices :=
                  [ {| chunk_index := 0;
                       delta := {| delta_content :=
                                     content <$> (block msg ≫= block_text) |};
                       chunk_finish_reason := None |} ] |} in
           mret (stream_write stream (Frame_data chunk))
         else mret stream);
      if done msg then
        id ← uuid;
        created ← unixTimestamp;
        let endChunk :=
          {| chunk_id := id;
             chunk_object := "chat.completion.chunk";
             chunk_created := created;
             chunk_model := model;
             chunk_choices :=
               [ {| chunk_index := 0;
                    delta := {| delta_content := None |};
                    chunk_finish_reason := Some "stop" |} ] |} in
        mret (stream_write (stream_write stream (Frame_data endChunk)) DONE_frame)
      else for_of_connectMessages model rest stream
  end.

End Loop.

(** The function returns the stream while the anonymous [async] task still
    runs; the value here is the stream once that task has finished.  Inside
    the task only [client.chat] can throw, and it does so before the first
    write. *)
Definition createCompletionStreamV2 `{Platform} `{Collaborators}
    (model : string) (messages : list JSValue) (authToken : string)
    : M PassThrough :=
  write_log (Logger_info_model true model);;
  tokenType ← lift (detectTokenType authToken);
  if negb (is_jwt tokenType) then
    throw (Unsupported_credential_type EmptyString)
  else
    messageContent ← lift (lastMessageContent messages);
    deviceId ← lift (extractDeviceIdFromJWT authToken);
    sessionId ← lift (extractSessionIdFromJWT authToken);
    userId ← lift (extractUserIdFromJWT authToken);
    let config :=
      {| baseUrl := "https://www.kimi.com"; authToken := authToken;
         deviceId := deviceId; sessionId := sessionId; userId := userId |} in
    client ← new_ConnectRPCClient config;
    let selection := resolveScenario model in
    write_log (Logger_info_scenario model selection);;
    let stream := new_PassThrough in
    try_catch_M
      (connectMessages ← client_chat client messageContent
         {| option_scenario := scenario selection;
            option_thinking := thinking selection |};
       stream ← for_of_connectMessages model connectMessages stream;
       mret (stream_end stream))
      (fun error =>
         write_log (Logger_error error);;
         mret (stream_destroy stream error)).

(** ** A reference runtime

    An executable instance of [Platform], for running the controller on
    concrete credentials.  It follows Node on ASCII text: the decoder takes
    both base64 alphabets, skips characters outside them and stops at the
    first [=]; the parser reads the JSON grammar.  Text outside Latin-1
    (multi-byte UTF-8, [\u] escapes above U+00FF) is beyond a one-octet code
    unit and is not covered.  The general theorems below hold for every
    [Platform] and do not depend on this instance. *)

Module Node.

Definition sextet (c : ascii) : option N :=
  let n := N_of_ascii c in
  if ((65 <=? n) && (n <=? 90))%N then Some (n - 65)%N
  else if ((97 <=? n) && (n <=? 122))%N then Some (n - 71)%N
  else if ((48 <=? n) && (n <=? 57))%N then Some (n + 4)%N
  else if ((n =? 43) || (n =? 45))%N then Some 62%N
  else if ((n =? 47) || (n =? 95))%N then Some 63%N
  else None.

Fixpoint sextets (s : string) : list N :=
  match s with
  | EmptyString => []
  | String c s' =>
      match sextet c with
      | Some v => v :: sextets s'
      | None => if Ascii.eqb c "=" then [] else sextets s'
      end
  end.

Fixpoint octets (l : list N) : list N :=
  match l with
  | a :: b :: c :: d :: rest =>
      (a * 4 + b / 16)%N :: ((b mod 16) * 16 + c / 4)%N
        :: ((c mod 4) * 64 + d)%N :: octets rest
  | [a; b; c] => [(a * 4 + b / 16)%N; ((b mod 16) * 16 + c / 4)%N]
  | [a; b] => [(a * 4 + b / 16)%N]
  | _ => []
  end.

Definition base64_toString (s : string) : string :=
  fold_right (fun n acc => String (ascii_of_N n) acc) EmptyString
    (octets (sextets s)).

Definition is_json_space (c : ascii) : bool :=
  match N_of_ascii c with
  | 9 | 10 | 13 | 32 => true
  | _ => false
  end%N.

Fixpoint skip_space (s : string) : string :=
  match s with
  | String c s' => if is_json_space c then skip_space s' else s
  | EmptyString => EmptyString
  end.

Definition digit (c : ascii) : option Z :=
  let n := N_of_ascii c in
  if ((48 <=? n) && (n <=? 57))%N then Some (Z.of_N (n - 48)) else None.

Definition hex_digit (c : ascii) : option N :=
  let n := N_of_ascii c in
  if ((48 <=? n) && (n <=? 57))%N then Some (n - 48)%N
  else if ((65 <=? n) && (n <=? 70))%N then Some (n - 55)%N
  else if ((97 <=? n) && (n <=? 102))%N then Some (n - 87)%N
  else None.

(** A run of digits: its value on top of [acc], its length, the rest. *)
Fixpoint read_digits (s : string) (acc : Z) (count : nat) : Z * nat * string :=
  match s with
  | String c s' =>
      match digit c with
      | Some d => read_digits s' (acc * 10 + d)%Z (S count)
      | None => (acc, count, s)
      end
  | EmptyString => (acc, count, s)
  end.

Definition read_exponent (s : string) : option (Z * string) :=
  match s with
  | String c s' =>
      if Ascii.eqb c "e" || Ascii.eqb c "E" then
        let '(negative, s'') :=
          match s' with
          | String sign t =>
              if Ascii.eqb sign "-" then (true, t)
              else if Ascii.eqb sign "+" then (false, t) else (false, s')
          | EmptyString => (false, s')
          end in
        match read_digits s'' 0 0 with
        | (_, O, _) => None
        | (e, _, rest) => Some (if negative then (- e)%Z else e, rest)
        end
      else Some (0%Z, s)
  | EmptyString => Some (0%Z, s)
  end.

Definition read_fraction (s : string) (int_part : Z) : option (Z * nat * string) :=
  match s with
  | String c s' =>
      if Ascii.eqb c "." then
        match read_digits s' int_part 0 with
        | (_, O, _) => None
        | r => Some r
        end
      else Some (int_part, O, s)
  | EmptyString => Some (int_part, O, s)
  end.

(** A JSON number: an optional minus sign, an integer part without a
    leading zero, an optional fraction, an optional exponent. *)
Definition read_number (s : string) : option (JSValue * string) :=
  let '(negative, s1) :=
    match s with
    | String c t => if Ascii.eqb c "-" then (true, t) else (false, s)
    | EmptyString => (false, s)
    end in
  int_part ←
    match s1 with
    | String c t =>
        if Ascii.eqb c "0" then Some (0%Z, t)
        else match read_digits s1 0 0 with
             | (_, O, _) => None
             | (v, _, rest) => Some (v, rest)
             end
    | EmptyString => None
    end;
  '(m, places, s2) ← read_fraction int_part.2 int_part.1;
  '(e, s3) ← read_exponent s2;
  Some (JNumber (if negative then (- m)%Z else m) (e - Z.of_nat places)%Z, s3).

(** The characters of a string literal after its opening quote. *)
Fixpoint read_string (s : string) : option (string * string) :=
  match s with
  | EmptyString => None
  | String c s' =>
      if Ascii.eqb c "034" then Some (EmptyString, s')
      else if Ascii.eqb c "\" then
        match s' with
        | String e s'' =>
            let plain (x : ascii) :=
              '(str, rest) ← read_string s''; Some (String x str, rest) in
            if Ascii.eqb e "034" then plain "034"%char
            else if Ascii.eqb e "\" then plain "\"%char
            else if Ascii.eqb e "/" then plain "/"%char
            else if Ascii.eqb e "b" then plain (ascii_of_nat 8)
            else if Ascii.eqb e "f" then plain (ascii_of_nat 12)
            else if Ascii.eqb e "n" then plain (ascii_of_nat 10)
            else if Ascii.eqb e "r" then plain (ascii_of_nat 13)
            else if Ascii.eqb e "t" then plain (ascii_of_nat 9)
            else if Ascii.eqb e "u" then
              match s'' with
              | String h1 (String h2 (String h3 (String h4 t))) =>
                  a ← hex_digit h1; b ← hex_digit h2;
                  c' ← hex_digit h3; d ← hex_digit h4;
                  let code := (((a * 16 + b) * 16 + c') * 16 + d)%N in
                  if (code <? 256)%N then
                    '(str, rest) ← read_string t;
                    Some (String (ascii_of_N code) str, rest)
                  else None
              | _ => None
              end
            else None
        | EmptyString => None
        end
      else if (N_of_ascii c <? 32)%N then None
      else '(str, rest) ← read_string s'; Some (String c str, rest)
  end.

(** [obj[key] = v]: a repeated key keeps its place and takes the later
    value. *)
Fixpoint set_property (key : string) (v : JSValue)
    (fields : list (string * JSValue)) : list (string * JSValue) :=
  match fields with
  | [] => [(key, v)]
  | (k, old) :: rest =>
      if String.eqb k key then (k, v) :: rest
      else (k, old) :: set_property key v rest
  end.

Definition read_literal (lit : string) (v : JSValue) (s : string)
    : option (JSValue * string) :=
  if JSString.startsWith s lit
  then Some (v, String.substring (String.length lit)
                  (String.length s - String.length lit) s)
  else None.

Fixpoint read_value (fuel : nat) (s : string) : option (JSValue * string) :=
  match fuel with
  | O => None
  | S fuel =>
      match skip_space s with
      | EmptyString => None
      | String c r as s0 =>
          if Ascii.eqb c "{" then
            match skip_space r with
            | String c' r' as r0 =>
                if Ascii.eqb c' "}" then Some (JObject [], r')
                else read_members fuel r0 []
            | EmptyString => None
            end
          else if Ascii.eqb c "[" then
            match skip_space r with
            | String c' r' as r0 =>
                if Ascii.eqb c' "]" then Some (JArray [], r')
                else read_elements fuel r0 []
            | EmptyString => None
            end
          else if Ascii.eqb c "034" then
            '(str, rest) ← read_string r; Some (JString str, rest)
          else if Ascii.eqb c "t" then read_literal "true" (JBool true) s0
          else if Ascii.eqb c "f" then read_literal "false" (JBool false) s0
          else if Ascii.eqb c "n" then read_literal "null" JNull s0
          else read_number s0
      end
  end
with read_elements (fuel : nat) (s : string) (acc : list JSValue)
    : option (JSValue * string) :=
  match fuel with
  | O => None
  | S fuel =>
      '(v, r) ← read_value fuel s;
      match skip_space r with
      | String c r' =>
          if Ascii.eqb c "," then read_elements fuel r' (acc ++ [v])
          else if Ascii.eqb c "]" then Some (JArray (acc ++ [v]), r')
          else None
      | EmptyString => None
      end
  end
with read_members (fuel : nat) (s : string) (acc : list (string * JSValue))
    : option (JSValue * string) :=
  match fuel with
  | O => None
  | S fuel =>
      match skip_space s with
      | String q r =>
          if Ascii.eqb q "034" then
            '(key, r1) ← read_string r;
            match skip_space r1 with
            | String colon r2 =>
                if Ascii.eqb colon ":" then
                  '(v, r3) ← read_value fuel r2;
                  match skip_space r3 with
                  | String c r4 =>
                      if Ascii.eqb c ","
                      then read_members fuel r4 (set_property key v acc)
                      else if Ascii.eqb c "}"
                      then Some (JObject (set_property key v acc), r4)
                      else None
                  | EmptyString => None
                  end
                else None
            | EmptyString => None
            end
          else None
      | EmptyString => None
      end
  end.

(** Every call consumes a character before it recurses, so twice the
    length of the text bounds the depth of the recursion. *)
Definition parse (text : string) : option JSValue :=
  match read_value (2 * String.length text + 2) text with
  | Some (v, rest) =>
      match skip_space rest with
      | EmptyString => Some v
      | _ => None
      end
  | None => None
  end.

Definition decimal (z : Z) : string :=
  DecimalString.NilZero.string_of_int (Z.to_int z).

(** [String(v)].  An array is the comma-joined conversion of its elements,
    which raises when one of them does.  An object parsed from JSON holds no
    callable value: with an own [toString] neither that nor the inherited
    [valueOf] yields a primitive and the conversion is a [TypeError];
    without one the inherited [toString] answers.  Numbers are printed
    exactly when they are integers below 10^21 in magnitude. *)
Fixpoint to_string (v : JSValue) : Result string :=
  match v with
  | JUndefined => Ok "undefined"
  | JNull => Ok "null"
  | JBool true => Ok "true"
  | JBool false => Ok "false"
  | JNumber m e =>
      if (0 <=? e)%Z then Ok (decimal (m * 10 ^ e))
      else Ok (decimal m +:+ "e" +:+ decimal e)
  | JString s => Ok s
  | JArray items =>
      strs ←
        (fix elements (l : list JSValue) : Result (list string) :=
           match l with
           | [] => Ok []
           | x :: rest =>
               str ← match x with
                     | JUndefined | JNull => Ok EmptyString
                     | _ => to_string x
                     end;
               strs ← elements rest;
               Ok (str :: strs)
           end) items;
      Ok (JSString.join "," strs)
  | JObject fields =>
      match own_property "toString" fields with
      | Some _ => Throw TypeError
      | None => Ok "[object Object]"
      end
  | JBuiltin name => Ok ("function " +:+ name +:+ "() { [native code] }")
  end.

#[global] Instance platform : Platform := {|
  Buffer_base64_toString := base64_toString;
  JSON_parse := parse;
  ToString := to_string
|}.

End Node.

(** ** A scripted backend

    An executable instance of [Collaborators]: the RPC client answers every
    request with a fixed reply, identifiers and timestamps count upwards. *)

Module Scripted.

Definition text_event (s : string) : ConnectMessage :=
  {| block := Some {| block_text := Some {| content := s |} |}; done := false |}.

Definition done_event : ConnectMessage := {| block := None; done := true |}.

Definition heartbeat : ConnectMessage := {| block := None; done := false |}.

Definition backend (reply : Result ChatTextResponse)
    (events : Result (list ConnectMessage)) : Collaborators :=
  {| rpc_chatText := fun _ _ _ => reply;
     rpc_chat := fun _ _ _ => events;
     util_uuid := fun n => "chatcmpl-" +:+ Node.decimal (Z.of_nat n);
     util_unixTimestamp := fun n => (1700000000 + Z.of_nat n)%Z |}.

Definition reply : ChatTextResponse :=
  {| chatId := Some "chat-42"; response_text := "Hello!" |}.

(** Two content events around an empty one, the done event, and an event
    the backend would still have sent. *)
Definition events_before_done : list ConnectMessage :=
  [text_event "Hel"; heartbeat; text_event "lo"].

Definition events_after_done : list ConnectMessage := [text_event "late"].

(** A backend whose stream is marked done, and one whose stream just ends. *)
Definition with_done : Collaborators :=
  backend (Ok reply) (Ok (events_before_done ++ done_event :: events_after_done)).

Definition without_done : Collaborators :=
  backend (Ok reply) (Ok events_before_done).

(** A credential whose header is the object with [alg] HS512 and whose
    claims carry [app_id] kimi, [typ] access, a device, a session and a
    subject. *)
Definition access_token : string :=
  "eyJhbGciOiJIUzUxMiJ9.eyJhcHBfaWQiOiJraW1pIiwidHlwIjoiYWNjZXNzIiwiZGV2aWNlX2lkIjoiNzQ1MCIsInNzaWQiOiIxNzMxIiwic3ViIjoiY3E3ayJ9.c2ln".

(** The claims [app_id] kimi and [typ] access behind a first segment that
    does not begin with the marker [eyJ]. *)
Definition unmarked_token : string :=
  "xyJhbGciOiJIUzUxMiJ9.eyJhcHBfaWQiOiJraW1pIiwidHlwIjoiYWNjZXNzIn0.c2ln".

(** Claims that name a device and nothing else beside [app_id] and [typ]. *)
Definition device_only_token : string :=
  "eyJhbGciOiJIUzUxMiJ9.eyJhcHBfaWQiOiJraW1pIiwidHlwIjoiYWNjZXNzIiwiZGV2aWNlX2lkIjoiNzQ1MCJ9.c2ln".

End Scripted.

(** ** The vocabulary of the specification *)

(** The credential has three dot-separated segments and its middle segment
    base64-decodes to a JSON object whose [app_id] is "kimi" and whose [typ]
    is "access". *)
Definition kimi_access_claims `{Platform} (token : string) : Prop :=
  exists (header middle signature : string) (fields : list (string * JSValue)),
    JSString.split "." token = [header; middle; signature] /\
    JSON_parse (Buffer_base64_toString middle) = Some (JObject fields) /\
    own_property "app_id" fields = Some (JString "kimi") /\
    own_property "typ" fields = Some (JString "access").

(** A user message with the given content. *)
Definition user_message (c : JSValue) : JSValue :=
  JObject [("role", JString "user"); ("content", c)].

(** A typed part is an object with a string [type]; a list of typed parts
    is an array of them. *)
Definition is_typed_part (item : JSValue) : Prop :=
  exists (fields : list (string * JSValue)) (tag : string),
    item = JObject fields /\ own_property "type" fields = Some (JString tag).

Definition list_of_typed_parts (c : JSValue) : Prop :=
  exists items : list JSValue, c = JArray items /\ Forall is_typed_part items.

(** The decode that each claims reader attempts inside its [try]. *)
Definition decoded_claims `{Platform} (token : string) : Result JSValue :=
  text ← Buffer_from_base64_toString (JSString.split "." token !! 1);
  JSON_parse_throwing text.

Definition claims_readers `{Platform} : list (string -> Result JSValue) :=
  [extractDeviceIdFromJWT; extractSessionIdFromJWT; extractUserIdFromJWT].

Definition value_or_undefined (r : Result JSValue) : JSValue :=
  match r with
  | Ok v => v
  | Throw _ => JUndefined
  end.

(** The configuration and the options a request hands to the RPC client. *)
Definition request_config `{Platform} (token : string) : ConnectConfig :=
  {| baseUrl := "https://www.kimi.com";
     authToken := token;
     deviceId := value_or_undefined (extractDeviceIdFromJWT token);
     sessionId := value_or_undefined (extractSessionIdFromJWT token);
     userId := value_or_undefined (extractUserIdFromJWT token) |}.

Definition request_options (model : string) : ChatOptions :=
  {| option_scenario := scenario (resolveScenario model);
     option_thinking := thinking (resolveScenario model) |}.

(** The world in which the streaming task starts to read events: both log
    lines written, the client constructed, [client.chat] called. *)
Definition world_at_chat `{Platform} (model token text : string) (w : World) : World :=
  {| log := (log w ++ [Logger_info_model true model])
              ++ [Logger_info_scenario model (resolveScenario model)];
     rpc_clients := rpc_clients w ++ [request_config token];
     rpc_calls := rpc_calls w
                  ++ [Call_chat (request_config token) text (request_options model)];
     events_consumed := events_consumed w;
     uuids_drawn := uuids_drawn w;
     clock_reads := clock_reads w |}.

(** The header value the extractor works on: a non-empty [authorization],
    else a non-empty [x-goog-api-key] behind a synthesized prefix. *)
Definition selected_header (headers : gmap string string) : option string :=
  match headers !! "authorization" with
  | Some (String a rest) => Some (String a rest)
  | _ =>
      match headers !! "x-goog-api-key" with
      | Some (String k rest) => Some ("Bearer " +:+ String k rest)
      | _ => None
      end
  end.

(** Stripping the prefix, then the surrounding white space. *)
Definition normalized (header : string) : string :=
  JSString.trim (JSString.replace_bearer_prefix header).

Definition is_nullish (v : JSValue) : bool :=
  match v with
  | JUndefined | JNull => true
  | _ => false
  end.

(** A part tagged "text", and the text it contributes. *)
Definition is_text_part (item : JSValue) : bool :=
  strict_equals_string (value_or_undefined (get_property item P_type)) "text".

(** [item.text], [undefined] included. *)
Definition text_value (item : JSValue) : JSValue :=
  value_or_undefined (get_property item P_text).

(** The text of a part whose [text] is a string; a part without [text], or
    with a [null] one, contributes the empty text. *)
Definition plain_text (item : JSValue) : option string :=
  match text_value item with
  | JString s => Some s
  | JUndefined | JNull => Some EmptyString
  | _ => None
  end.

(** The two shapes of chunk the stream carries. *)
Definition content_chunk (id : string) (created : Z) (model text : string) : Chunk :=
  {| chunk_id := id;
     chunk_object := "chat.completion.chunk";
     chunk_created := created;
     chunk_model := model;
     chunk_choices :=
       [ {| chunk_index := 0;
            delta := {| delta_content := Some text |};
            chunk_finish_reason := None |} ] |}.

Definition terminal_chunk (id : string) (created : Z) (model : string) : Chunk :=
  {| chunk_id := id;
     chunk_object := "chat.completion.chunk";
     chunk_created := created;
     chunk_model := model;
     chunk_choices :=
       [ {| chunk_index := 0;
            delta := {| delta_content := None |};
            chunk_finish_reason := Some "stop" |} ] |}.

(** The frames of the stream by kind. *)
Definition is_terminal_chunk (c : Chunk) : bool :=
  match chunk_choices c with
  | [choice] =>
      match delta_content (delta choice), chunk_finish_reason choice with
      | None, Some reason => String.eqb reason "stop"
      | _, _ => false
      end
  | _ => false
  end.

Definition is_content_chunk (c : Chunk) : bool :=
  match chunk_choices c with
  | [choice] =>
      match delta_content (delta choice), chunk_finish_reason choice with
      | Some text, None => JSString.truthy text
      | _, _ => false
      end
  | _ => false
  end.

Definition is_terminal_frame (f : Frame) : bool :=
  match f with
  | Frame_data c => is_terminal_chunk c
  | Frame_text _ => false
  end.

Definition is_content_frame (f : Frame) : bool :=
  match f with
  | Frame_data c => is_content_chunk c
  | Frame_text _ => false
  end.

Definition is_sentinel_frame (f : Frame) : bool :=
  match f with
  | Frame_data _ => false
  | Frame_text raw => String.eqb raw ("data: [DONE]" +:+ newline +:+ newline)
  end.

(** ** Further vocabulary *)

(** The code unit [c] does not occur in [s]. *)
Fixpoint free_of (c : ascii) (s : string) : bool :=
  match s with
  | EmptyString => true
  | String a s' => negb (Ascii.eqb a c) && free_of c s'
  end.

(** No code unit of [s] is white space. *)
Fixpoint no_white_space (s : string) : bool :=
  match s with
  | EmptyString => true
  | String a s' => negb (JSString.is_white_space a) && no_white_space s'
  end.

(** A credential written as three segments. *)
Definition three_segments (header middle signature : string) : string :=
  header +:+ "." +:+ middle +:+ "." +:+ signature.

(** The events up to and including the first one marked done. *)
Fixpoint events_until_done (events : list ConnectMessage) : list ConnectMessage :=
  match events with
  | [] => []
  | msg :: rest => if done msg then [msg] else msg :: events_until_done rest
  end.

(** The non-empty text an event carries, if any. *)
Definition event_text (msg : ConnectMessage) : option string :=
  match block msg ≫= block_text with
  | Some t => if JSString.truthy (content t) then Some (content t) else None
  | None => None
  end.

(** The chunk inside a data frame, and the text of its delta. *)
Definition frame_chunk (f : Frame) : option Chunk :=
  match f with
  | Frame_data c => Some c
  | Frame_text _ => None
  end.

Definition chunk_text (c : Chunk) : option string :=
  match chunk_choices c with
  | [choice] => delta_content (delta choice)
  | _ => None
  end.

Definition frame_text (f : Frame) : option string :=
  frame_chunk f ≫= chunk_text.

(** The world in which [createCompletionV2] awaits its answer: both log
    lines written, the client constructed, [client.chatText] called. *)
Definition world_at_chatText `{Platform} (model token text : string) (w : World)
    : World :=
  {| log := (log w ++ [Logger_info_model false model])
              ++ [Logger_info_scenario model (resolveScenario model)];
     rpc_clients := rpc_clients w ++ [request_config token];
     rpc_calls := rpc_calls w
                  ++ [Call_chatText (request_config token) text (request_options model)];
     events_consumed := events_consumed w;
     uuids_drawn := uuids_drawn w;
     clock_reads := clock_reads w |}.

(** The frames of a backend sequence, written as a function of the
    sequence: [u] and [c] count the identifiers and timestamps drawn so
    far.  The loop of the controller is compared with it below. *)
Fixpoint stream_frames `{Collaborators} (model : string) (u c : nat)
    (events : list ConnectMessage) : list Frame :=
  match events with
  | [] => []
  | msg :: rest =>
      let here :=
        match event_text msg with
        | Some t =>
            [Frame_data (content_chunk (util_uuid u) (util_unixTimestamp c) model t)]
        | None => []
        end in
      let n := length here in
      if done msg then
        here ++ [Frame_data (terminal_chunk (util_uuid (u + n))
                               (util_unixTimestamp (c + n)) model);
                 DONE_frame]
      else here ++ stream_frames model (u + n) (c + n) rest
  end.

(** Two more scripted backends: one that is unavailable, one that answers
    without a chat identifier. *)
Module Failing.

Definition unavailable : Exception := CollaboratorError "backend unavailable".

Definition backend : Collaborators :=
  Scripted.backend (Throw unavailable) (Throw unavailable).

Definition anonymous : Collaborators :=
  Scripted.backend (Ok {| chatId := None; response_text := "Hello!" |}) (Ok []).

End Failing.

(** ** Facts about strings *)

Section StringFacts.

Import JSString.

Lemma startsWith_app (s p : string) :
  startsWith s p = true <-> exists post, s = p +:+ post.
Proof.
  revert s; induction p as [|b p IH]; intros s; simpl.
  - split; [intros _; exists s; reflexivity | reflexivity].
  - destruct s as [|a s].
    + split; [discriminate | intros [post H]; discriminate].
    + destruct (Ascii.eqb_spec a b) as [->|Hne].
      * rewrite IH. split; intros [post H]; exists post.
        -- simpl. now rewrite H.
        -- simpl in H. now inversion H.
      * split; [discriminate | intros [post H]].
        simpl in H. inversion H. contradiction.
Qed.

Lemma includes_Contains (s t : string) :
  includes s t = true <-> Contains s t.
Proof.
  induction s as [|a s IH]; simpl.
  - rewrite orb_false_r, startsWith_app. split.
    + intros [post H]. exists EmptyString, post. exact H.
    + intros [[|c pre] [post H]]; [exists post; exact H | discriminate].
  - rewrite orb_true_iff, startsWith_app, IH. split.
    + intros [[post H] | [pre [post H]]].
      * exists EmptyString, post. exact H.
      * exists (String a pre), post. simpl. now rewrite H.
    + intros [[|c pre] [post H]].
      * left. exists post. exact H.
      * right. simpl in H. inversion H. exists pre, post. reflexivity.
Qed.

Lemma includes_not_Contains (s t : string) :
  includes s t = false <-> ~ Contains s t.
Proof.
  rewrite <- includes_Contains. destruct (includes s t); split; intros H;
    try reflexivity; try discriminate; try (intros ?; discriminate).
  exfalso. now apply H.
Qed.

End StringFacts.

(** ** Scenario resolution: theorems *)

(** C3. [resolveScenario] is a function of the model name alone: its
    thinking flag is true exactly when the name contains "thinking", its
    scenario is the one the first-match table selects (k2.5, then search,
    then research, then k1, else the K2 default), and a name containing both
    "k2.5" and "search" resolves to K2, never to SEARCH. *)
Theorem resolveScenario_first_match (model : string) :
  (thinking (resolveScenario model) = true <-> Contains model "thinking") /\
  first_match model (scenario (resolveScenario model)) /\
  (Contains model "k2.5" -> Contains model "search" ->
   scenario (resolveScenario model) = SCENARIO_K2).
Proof.
  unfold resolveScenario.
  split; [| split].
  - rewrite <- includes_Contains.
    repeat match goal with |- context [if ?b then _ else _] => destruct b end;
      reflexivity.
  - destruct (JSString.includes model "k2.5") eqn:E1.
    { apply fm_k25. now apply includes_Contains. }
    apply includes_not_Contains in E1.
    destruct (JSString.includes model "search") eqn:E2.
    { apply fm_search; [assumption | now apply includes_Contains]. }
    apply includes_not_Contains in E2.
    destruct (JSString.includes model "research") eqn:E3.
    { apply fm_research; [assumption | assumption | now apply includes_Contains]. }
    apply includes_not_Contains in E3.
    destruct (JSString.includes model "k1") eqn:E4.
    { apply fm_k1; try assumption. now apply includes_Contains. }
    apply includes_not_Contains in E4.
    now apply fm_default.
  - intros H _. apply includes_Contains in H. now rewrite H.
Qed.

(** Every name that contains "research" contains "search", which is tested
    first: the RESEARCH scenario is never selected. *)
Lemma research_is_shadowed (model : string) :
  scenario (resolveScenario model) <> SCENARIO_RESEARCH.
Proof.
  unfold resolveScenario.
  destruct (JSString.includes model "k2.5"); [discriminate |].
  destruct (JSString.includes model "search") eqn:Hsearch; [discriminate |].
  destruct (JSString.includes model "research") eqn:Hresearch.
  - apply includes_Contains in Hresearch. destruct Hresearch as (pre & post & ->).
    apply includes_not_Contains in Hsearch. exfalso. apply Hsearch.
    exists (pre +:+ "re"), post.
    clear Hsearch. induction pre as [|c pre IH]; [reflexivity |].
    change (String c (pre +:+ "research" +:+ post)
            = String c ((pre +:+ "re") +:+ "search" +:+ post)).
    now rewrite IH.
  - destruct (JSString.includes model "k1"); discriminate.
Qed.

Lemma resolveScenario_first_match_witness :
  Contains "kimi-k2.5-search" "k2.5" /\
  Contains "kimi-k2.5-search" "search" /\
  scenario (resolveScenario "kimi-k2.5-search") = SCENARIO_K2 /\
  thinking (resolveScenario "kimi-k2.5-search") = false.
Proof.
  assert (H1 : Contains "kimi-k2.5-search" "k2.5")
    by (exists "kimi-", "-search"; reflexivity).
  assert (H2 : Contains "kimi-k2.5-search" "search")
    by (exists "kimi-k2.5-", EmptyString; reflexivity).
  split; [exact H1 | split; [exact H2 | split]].
  - exact (proj2 (proj2 (resolveScenario_first_match "kimi-k2.5-search")) H1 H2).
  - reflexivity.
Defined.

(** ** Credential classification: theorems *)

Section Classification.

Context `{P : Platform}.

Lemma strict_equals_string_true (v : JSValue) (lit : string) :
  strict_equals_string v lit = true <-> v = JString lit.
Proof.
  destruct v; simpl; try (split; [discriminate | intros H; discriminate]).
  rewrite String.eqb_eq. split; [intros -> | intros [= ->]]; reflexivity.
Qed.

(** A property read that yields a given string can only come from an own
    property of an object. *)
Lemma get_property_is_string (payload : JSValue) (p : PropertyName) (lit : string) :
  (exists v, get_property payload p = Ok v /\ strict_equals_string v lit = true) <->
  (exists fields, payload = JObject fields /\
                  own_property (property_key p) fields = Some (JString lit)).
Proof.
  split.
  - intros [v [Hget Heq]]. apply strict_equals_string_true in Heq. subst v.
    destruct payload; simpl in Hget; try discriminate.
    + destruct p; discriminate.
    + exists fields. split; [reflexivity |].
      destruct (own_property (property_key p) fields) as [v|]; simpl in Hget;
        [now inversion Hget | discriminate].
  - intros [fields [-> Hown]]. exists (JString lit). simpl. rewrite Hown.
    split; [reflexivity | apply String.eqb_refl].
Qed.

Lemma split_three (token : string) :
  Nat.eqb (length (JSString.split "." token)) 3 = true <->
  exists header middle signature,
    JSString.split "." token = [header; middle; signature].
Proof.
  rewrite Nat.eqb_eq. split.
  - destruct (JSString.split "." token) as [|a [|b [|c [|d l]]]]; try discriminate.
    intros _. now exists a, b, c.
  - intros (a & b & c & ->). reflexivity.
Qed.

(** The [try] block of [detectTokenType], once the segments are known. *)
Lemma classify_middle (middle : string) :
  (exists fields,
     JSON_parse (Buffer_base64_toString middle) = Some (JObject fields) /\
     own_property "app_id" fields = Some (JString "kimi") /\
     own_property "typ" fields = Some (JString "access")) \/
  try_catch
    (text ← Buffer_from_base64_toString (Some middle);
     payload ← JSON_parse_throwing text;
     app ← get_property payload P_app_id;
     if strict_equals_string app "kimi" then
       ty ← get_property payload P_typ;
       if strict_equals_string ty "access" then Ok (Some jwt) else Ok None
     else Ok None)
    (fun _ => Ok None) = Ok None.
Proof.
  simpl. unfold JSON_parse_throwing.
  destruct (JSON_parse (Buffer_base64_toString middle)) as [payload|];
    [| right; reflexivity].
  simpl.
  destruct (get_property payload P_app_id) as [app|e] eqn:Happ;
    [| right; reflexivity].
  simpl.
  destruct (strict_equals_string app "kimi") eqn:Hkimi; [| right; reflexivity].
  destruct (get_property payload P_typ) as [ty|e] eqn:Hty;
    [| right; reflexivity].
  simpl.
  destruct (strict_equals_string ty "access") eqn:Haccess; [| right; reflexivity].
  left.
  destruct (proj1 (get_property_is_string payload P_app_id "kimi")) as [f1 [-> H1]];
    [now exists app |].
  destruct (proj1 (get_property_is_string (JObject f1) P_typ "access"))
    as [f2 [[= <-] H2]]; [now exists ty |].
  now exists f1.
Qed.

Lemma classify_middle_jwt (middle : string) (fields : list (string * JSValue)) :
  JSON_parse (Buffer_base64_toString middle) = Some (JObject fields) ->
  own_property "app_id" fields = Some (JString "kimi") ->
  own_property "typ" fields = Some (JString "access") ->
  try_catch
    (text ← Buffer_from_base64_toString (Some middle);
     payload ← JSON_parse_throwing text;
     app ← get_property payload P_app_id;
     if strict_equals_string app "kimi" then
       ty ← get_property payload P_typ;
       if strict_equals_string ty "access" then Ok (Some jwt) else Ok None
     else Ok None)
    (fun _ => Ok None) = Ok (Some jwt).
Proof.
  intros Hparse Happ Hty. simpl. unfold JSON_parse_throwing.
  rewrite Hparse. simpl. rewrite Happ, Hty. reflexivity.
Qed.

(** The classifier always returns, and returns [jwt] exactly for the
    structured credentials. *)
Lemma detectTokenType_cases (token : string) :
  (JSString.startsWith token "eyJ" = true /\ kimi_access_claims token /\
   detectTokenType token = Ok jwt) \/
  (~ (JSString.startsWith token "eyJ" = true /\ kimi_access_claims token) /\
   detectTokenType token = Ok refresh).
Proof.
  unfold detectTokenType.
  destruct (JSString.startsWith token "eyJ") eqn:Hmark; simpl;
    [| right; split; [intros [H _]; discriminate | reflexivity]].
  destruct (Nat.eqb (length (JSString.split "." token)) 3) eqn:Hlen.
  - destruct (proj1 (split_three token) Hlen) as (h & m & s & Hsplit).
    rewrite Hsplit. change ([h; m; s] !! 1) with (Some m).
    destruct (classify_middle m) as [(fields & Hparse & Happ & Hty) | Hnone].
    + left. split; [reflexivity | split].
      * now exists h, m, s, fields.
      * now rewrite (classify_middle_jwt m fields Hparse Happ Hty).
    + right. split.
      * intros [_ (h' & m' & s' & fields & Hsplit' & Hparse & Happ & Hty)].
        rewrite Hsplit in Hsplit'. injection Hsplit' as <- <- <-.
        rewrite (classify_middle_jwt m fields Hparse Happ Hty) in Hnone.
        discriminate.
      * now rewrite Hnone.
  - right. split; [| reflexivity].
    intros [_ (h & m & s & fields & Hsplit & _)].
    assert (Nat.eqb (length (JSString.split "." token)) 3 = true)
      by (apply split_three; now exists h, m, s).
    congruence.
Qed.

(** C1, as amended.  Classification never raises.  A credential classifies
    as [jwt] exactly when it begins with the marker [eyJ], has three
    dot-separated segments, and its middle segment base64-decodes to a JSON
    object whose [app_id] is "kimi" and whose [typ] is "access"; every other
    string classifies as [refresh]. *)
Theorem detectTokenType_structured (token : string) :
  (exists t, detectTokenType token = Ok t) /\
  (detectTokenType token = Ok jwt <->
   JSString.startsWith token "eyJ" = true /\ kimi_access_claims token) /\
  (detectTokenType token = Ok refresh <->
   ~ (JSString.startsWith token "eyJ" = true /\ kimi_access_claims token)).
Proof.
  destruct (detectTokenType_cases token) as [(Hmark & Hclaims & Hjwt) | (Hnot & Href)].
  - split; [now exists jwt | split].
    + split; [intros _; now split | intros _; exact Hjwt].
    + rewrite Hjwt. split; [discriminate | intros H; exfalso; apply H; now split].
  - split; [now exists refresh | split].
    + rewrite Href. split; [discriminate | intros H; contradiction].
    + split; [intros _; exact Hnot | intros _; exact Href].
Qed.

End Classification.

Lemma detectTokenType_structured_witness :
  JSString.startsWith Scripted.access_token "eyJ" = true /\
  @kimi_access_claims Node.platform Scripted.access_token /\
  @detectTokenType Node.platform Scripted.access_token = Ok jwt.
Proof.
  assert (Hmark : JSString.startsWith Scripted.access_token "eyJ" = true)
    by reflexivity.
  assert (Hclaims : @kimi_access_claims Node.platform Scripted.access_token).
  { eexists _, _, _, _.
    split; [vm_compute; reflexivity |].
    split; [vm_compute; reflexivity |].
    split; reflexivity. }
  split; [exact Hmark | split; [exact Hclaims |]].
  apply (proj2 (proj1 (proj2
           (@detectTokenType_structured Node.platform Scripted.access_token)))).
  split; [exact Hmark | exact Hclaims].
Defined.

(** Three segments and the right claims do not make a credential
    structured: without the marker [eyJ] it classifies as [refresh]. *)
Lemma detectTokenType_unmarked_counterexample :
  ~ (forall token : string,
       @kimi_access_claims Node.platform token ->
       @detectTokenType Node.platform token = Ok jwt).
Proof.
  intros H. specialize (H Scripted.unmarked_token).
  assert (Hclaims : @kimi_access_claims Node.platform Scripted.unmarked_token).
  { eexists _, _, _, _.
    split; [vm_compute; reflexivity |].
    split; [vm_compute; reflexivity |].
    split; reflexivity. }
  specialize (H Hclaims). vm_compute in H. discriminate.
Qed.

(** ** Claims readers: theorems *)

Section ClaimsReaders.

Context `{P : Platform}.

Lemma reader_total (token : string) (p : PropertyName) :
  try_catch
    (text ← Buffer_from_base64_toString (JSString.split "." token !! 1);
     payload ← JSON_parse_throwing text;
     get_property payload p)
    (fun _ => Ok JUndefined)
  = Ok (value_or_undefined (decoded_claims token ≫= fun payload => get_property payload p)).
Proof.
  unfold decoded_claims.
  destruct (Buffer_from_base64_toString (JSString.split "." token !! 1)) as [text|e];
    [| reflexivity].
  simpl. destruct (JSON_parse_throwing text) as [payload|e]; [| reflexivity].
  simpl. destruct (get_property payload p); reflexivity.
Qed.

Ltac each_reader :=
  repeat first [apply List.Forall_cons | apply List.Forall_nil]; cbv beta.

(** C9. Each of the three claims readers returns for every credential; when
    the decode of the claims fails each yields [undefined]; when it succeeds
    each yields its own field of the claims, [undefined] where reading that
    field fails; and running one reader before another neither aborts nor
    changes the second. *)
Theorem claims_readers_isolated (token : string) :
  Forall (fun read => exists v, read token = Ok v) claims_readers /\
  (forall e, decoded_claims token = Throw e ->
     Forall (fun read => read token = Ok JUndefined) claims_readers) /\
  (forall payload, decoded_claims token = Ok payload ->
     extractDeviceIdFromJWT token
       = Ok (value_or_undefined (get_property payload P_device_id)) /\
     extractSessionIdFromJWT token
       = Ok (value_or_undefined (get_property payload P_ssid)) /\
     extractUserIdFromJWT token
       = Ok (value_or_undefined (get_property payload P_sub))) /\
  Forall (fun first =>
     Forall (fun second => (first token ;; second token) = second token)
            claims_readers) claims_readers.
Proof.
  assert (Hd : extractDeviceIdFromJWT token = _) by apply reader_total.
  assert (Hs : extractSessionIdFromJWT token = _) by apply reader_total.
  assert (Hu : extractUserIdFromJWT token = _) by apply reader_total.
  unfold claims_readers.
  split; [| split; [| split]].
  - each_reader; eexists; eassumption.
  - intros e He. rewrite He in Hd, Hs, Hu. each_reader; assumption.
  - intros payload Hp. rewrite Hp in Hd, Hs, Hu. now repeat split.
  - each_reader; rewrite ?Hd, ?Hs, ?Hu; reflexivity.
Qed.

End ClaimsReaders.

Lemma claims_readers_isolated_witness :
  @decoded_claims Node.platform "opaque-refresh-token" = Throw TypeError /\
  Forall (fun read => read "opaque-refresh-token" = Ok JUndefined)
         (@claims_readers Node.platform).
Proof.
  assert (H : @decoded_claims Node.platform "opaque-refresh-token" = Throw TypeError)
    by reflexivity.
  split; [exact H |].
  exact (proj1 (proj2 (@claims_readers_isolated Node.platform "opaque-refresh-token"))
           TypeError H).
Defined.

(** Claims that are a JSON string, here the string kimi: the decode
    succeeds, [device_id] and [ssid] are [undefined], and [sub] is the
    method that every string inherits. *)
Example claims_of_string_payload :
  @extractDeviceIdFromJWT Node.platform "eyJhbGciOiJIUzUxMiJ9.ImtpbWki.c2ln"
    = Ok JUndefined /\
  @extractSessionIdFromJWT Node.platform "eyJhbGciOiJIUzUxMiJ9.ImtpbWki.c2ln"
    = Ok JUndefined /\
  @extractUserIdFromJWT Node.platform "eyJhbGciOiJIUzUxMiJ9.ImtpbWki.c2ln"
    = Ok (JBuiltin "String.prototype.sub").
Proof. repeat split; vm_compute; reflexivity. Qed.

(** A credential whose claims hold a device and neither a session nor a
    subject: the device is read, the other two are [undefined]. *)
Example claims_of_device_only_token :
  @extractDeviceIdFromJWT Node.platform Scripted.device_only_token
    = Ok (JString "7450") /\
  @extractSessionIdFromJWT Node.platform Scripted.device_only_token
    = Ok JUndefined /\
  @extractUserIdFromJWT Node.platform Scripted.device_only_token
    = Ok JUndefined.
Proof. repeat split; vm_compute; reflexivity. Qed.

(** ** Credential extraction: theorems *)

Section Extraction.

Import JSString.

Lemma trimStart_idempotent (s : string) : trimStart (trimStart s) = trimStart s.
Proof.
  induction s as [|c s IH]; simpl; [reflexivity |].
  destruct (is_white_space c) eqn:Hc; [exact IH |].
  simpl. now rewrite Hc.
Qed.

Lemma trim_trimStart (s : string) : trim (trimStart s) = trim s.
Proof. unfold trim. now rewrite trimStart_idempotent. Qed.

Lemma trim_nonempty (s : string) : trim s <> EmptyString -> truthy s = true.
Proof. destruct s; [intros H; now elim H | reflexivity]. Qed.

(** The synthesized prefix and the white space after it are what the
    pattern removes: the key itself is not searched for a second prefix. *)
Lemma replace_synthesized_prefix (key : string) :
  replace_bearer_prefix ("Bearer " +:+ key) = trimStart key.
Proof. reflexivity. Qed.

Lemma truthy_false (s : string) : truthy s = false <-> s = EmptyString.
Proof. destruct s; simpl; split; intros H; try reflexivity; discriminate. Qed.

Lemma selected_header_none (headers : gmap string string) :
  selected_header headers = None <->
  truthy_optional (headers !! "authorization") = false /\
  truthy_optional (headers !! "x-goog-api-key") = false.
Proof.
  unfold selected_header.
  destruct (headers !! "authorization") as [[|a r]|];
    destruct (headers !! "x-goog-api-key") as [[|k r']|]; simpl;
    split; try (intros [? ?]); try intros ?; try discriminate; auto.
Qed.

#[local] Opaque trim replace_bearer_prefix.

(** What the extractor does, read off the selected header. *)
Lemma extractAuthToken_run (headers : gmap string string) (w : World) :
  (extractAuthToken headers w).1 =
    match selected_header headers with
    | None => Throw Missing_credential
    | Some h =>
        if truthy (normalized h) then Ok (normalized h)
        else Throw Invalid_credential_format
    end /\
  rpc_clients (extractAuthToken headers w).2 = rpc_clients w /\
  rpc_calls (extractAuthToken headers w).2 = rpc_calls w.
Proof.
  unfold extractAuthToken, selected_header, normalized.
  unfold mbind, M_bind, mret, M_ret, write_log, throw.
  destruct (headers !! "authorization") as [[|a r]|];
    destruct (headers !! "x-goog-api-key") as [[|k r']|];
    simpl;
    repeat match goal with
      | |- context [truthy (trim ?t)] => destruct (truthy (trim t))
      end; simpl; auto.
Qed.

#[local] Transparent trim replace_bearer_prefix.

(** C7, as amended.  Extraction fails with [Missing_credential] exactly when
    neither [authorization] nor [x-goog-api-key] carries a non-empty value
    (an absent and an empty header are alike); it fails with the different
    error [Invalid_credential_format] exactly when a header is selected and
    nothing is left of it after the prefix and the white space are
    stripped; otherwise it returns the normalized token.  No path touches
    the RPC client. *)
Theorem extractAuthToken_outcomes (headers : gmap string string) (w : World) :
  ((extractAuthToken headers w).1 = Throw Missing_credential <->
   truthy_optional (headers !! "authorization") = false /\
   truthy_optional (headers !! "x-goog-api-key") = false) /\
  ((extractAuthToken headers w).1 = Throw Invalid_credential_format <->
   exists h, selected_header headers = Some h /\ normalized h = EmptyString) /\
  (forall h, selected_header headers = Some h -> normalized h <> EmptyString ->
     (extractAuthToken headers w).1 = Ok (normalized h)) /\
  Missing_credential <> Invalid_credential_format /\
  rpc_clients (extractAuthToken headers w).2 = rpc_clients w /\
  rpc_calls (extractAuthToken headers w).2 = rpc_calls w.
Proof.
  destruct (extractAuthToken_run headers w) as (Hrun & Hclients & Hcalls).
  rewrite Hrun, <- selected_header_none.
  repeat split; try assumption; try discriminate.
  - destruct (selected_header headers) as [h|]; [| reflexivity].
    destruct (truthy (normalized h)); discriminate.
  - intros ->. reflexivity.
  - destruct (selected_header headers) as [h|]; [| discriminate].
    destruct (truthy (normalized h)) eqn:Ht; [discriminate |].
    intros _. exists h. split; [reflexivity | now apply truthy_false].
  - intros (h & -> & Hn). now rewrite Hn.
  - intros h -> Hn. destruct (truthy (normalized h)) eqn:Ht; [reflexivity |].
    apply truthy_false in Ht. contradiction.
Qed.

(** C6, as amended.  When [authorization] is absent and [x-goog-api-key] is
    present with a value that is not empty once trimmed, the token is that
    value with the surrounding white space trimmed; a prefix written inside
    the key value stays part of the token. *)
Theorem extractAuthToken_api_key (headers : gmap string string) (key : string)
    (w : World) :
  headers !! "authorization" = None ->
  headers !! "x-goog-api-key" = Some key ->
  trim key <> EmptyString ->
  (extractAuthToken headers w).1 = Ok (trim key).
Proof.
  intros Hauth Hkey Hne.
  destruct (extractAuthToken_run headers w) as (Hrun & _).
  rewrite Hrun. unfold selected_header. rewrite Hauth, Hkey.
  pose proof (trim_nonempty key Hne) as Hk.
  destruct key as [|k rest]; [discriminate |].
  unfold normalized. rewrite replace_synthesized_prefix, trim_trimStart.
  destruct (truthy (trim (String k rest))) eqn:Ht; [reflexivity |].
  apply truthy_false in Ht. contradiction.
Qed.

End Extraction.

Lemma extractAuthToken_outcomes_witness :
  selected_header {[ "authorization" := "bearer  t0ken " ]} = Some "bearer  t0ken " /\
  normalized "bearer  t0ken " <> EmptyString /\
  (extractAuthToken {[ "authorization" := "bearer  t0ken " ]} initial_world).1
    = Ok "t0ken".
Proof.
  assert (H1 : selected_header {[ "authorization" := "bearer  t0ken " ]}
               = Some "bearer  t0ken ") by (vm_compute; reflexivity).
  assert (H2 : normalized "bearer  t0ken " <> EmptyString)
    by (vm_compute; discriminate).
  split; [exact H1 | split; [exact H2 |]].
  exact (proj1 (proj2 (proj2
           (extractAuthToken_outcomes {[ "authorization" := "bearer  t0ken " ]}
              initial_world))) _ H1 H2).
Defined.

(** An [authorization] header that is present and empty is reported as
    missing, not as badly formed. *)
Lemma extractAuthToken_empty_header_counterexample :
  ~ (forall (headers : gmap string string) (w : World),
       ((extractAuthToken headers w).1 = Throw Missing_credential <->
        headers !! "authorization" = None /\
        headers !! "x-goog-api-key" = None) /\
       (is_Some (headers !! "authorization") ->
        normalized (default EmptyString (headers !! "authorization")) = EmptyString ->
        (extractAuthToken headers w).1 = Throw Invalid_credential_format)).
Proof.
  intros H.
  destruct (H {[ "authorization" := EmptyString ]} initial_world) as [[Hmissing _] _].
  assert (Hrun : (extractAuthToken {[ "authorization" := EmptyString ]}
                    initial_world).1 = Throw Missing_credential)
    by (vm_compute; reflexivity).
  destruct (Hmissing Hrun) as [Habsent _].
  vm_compute in Habsent. discriminate.
Qed.

Lemma extractAuthToken_api_key_witness :
  ({[ "x-goog-api-key" := " Bearer sk-1 " ]} : gmap string string)
    !! "authorization" = None /\
  ({[ "x-goog-api-key" := " Bearer sk-1 " ]} : gmap string string)
    !! "x-goog-api-key" = Some " Bearer sk-1 " /\
  (extractAuthToken {[ "x-goog-api-key" := " Bearer sk-1 " ]} initial_world).1
    = Ok "Bearer sk-1".
Proof.
  assert (H1 : ({[ "x-goog-api-key" := " Bearer sk-1 " ]} : gmap string string)
                 !! "authorization" = None) by (vm_compute; reflexivity).
  assert (H2 : ({[ "x-goog-api-key" := " Bearer sk-1 " ]} : gmap string string)
                 !! "x-goog-api-key" = Some " Bearer sk-1 ")
    by (vm_compute; reflexivity).
  split; [exact H1 | split; [exact H2 |]].
  apply (extractAuthToken_api_key _ " Bearer sk-1 " initial_world H1 H2).
  vm_compute. discriminate.
Defined.

(** A key that itself begins with the prefix keeps it: the token is not the
    key with the prefix stripped. *)
Lemma extractAuthToken_api_key_counterexample :
  ~ (forall (headers : gmap string string) (key : string) (w : World),
       headers !! "authorization" = None ->
       headers !! "x-goog-api-key" = Some key ->
       (extractAuthToken headers w).1 = Ok (normalized key)).
Proof.
  intros H.
  specialize (H {[ "x-goog-api-key" := "Bearer abc" ]} "Bearer abc" initial_world).
  assert (H1 : ({[ "x-goog-api-key" := "Bearer abc" ]} : gmap string string)
                 !! "authorization" = None) by (vm_compute; reflexivity).
  assert (H2 : ({[ "x-goog-api-key" := "Bearer abc" ]} : gmap string string)
                 !! "x-goog-api-key" = Some "Bearer abc")
    by (vm_compute; reflexivity).
  specialize (H H1 H2). vm_compute in H. discriminate.
Qed.

(** ** The two entry points: theorems *)

Section EntryPoints.

Context `{P : Platform} `{C : Collaborators}.

Lemma reader_returns (token : string) :
  extractDeviceIdFromJWT token
    = Ok (value_or_undefined (extractDeviceIdFromJWT token)) /\
  extractSessionIdFromJWT token
    = Ok (value_or_undefined (extractSessionIdFromJWT token)) /\
  extractUserIdFromJWT token
    = Ok (value_or_undefined (extractUserIdFromJWT token)).
Proof.
  assert (Hd : extractDeviceIdFromJWT token = _) by apply reader_total.
  assert (Hs : extractSessionIdFromJWT token = _) by apply reader_total.
  assert (Hu : extractUserIdFromJWT token = _) by apply reader_total.
  rewrite Hd, Hs, Hu. now repeat split.
Qed.

Lemma detectTokenType_refresh (token : string) :
  detectTokenType token <> Ok jwt -> detectTokenType token = Ok refresh.
Proof.
  destruct (detectTokenType_cases token) as [(_ & _ & H) | (_ & H)];
    [intros Hn; contradiction | intros _; exact H].
Qed.

(** C2. A credential that does not classify as structured makes both entry
    points fail with the unsupported-credential error, and on that path no
    RPC client is constructed and none of its operations is invoked. *)
Theorem opaque_credential_rejected_before_rpc
    (model : string) (messages : list JSValue) (token : string) (w : World) :
  detectTokenType token <> Ok jwt ->
  ((exists guidance,
      (createCompletionV2 model messages token w).1
        = Throw (Unsupported_credential_type guidance)) /\
   rpc_clients (createCompletionV2 model messages token w).2 = rpc_clients w /\
   rpc_calls (createCompletionV2 model messages token w).2 = rpc_calls w) /\
  ((exists guidance,
      (createCompletionStreamV2 model messages token w).1
        = Throw (Unsupported_credential_type guidance)) /\
   rpc_clients (createCompletionStreamV2 model messages token w).2 = rpc_clients w /\
   rpc_calls (createCompletionStreamV2 model messages token w).2 = rpc_calls w).
Proof.
  intros Hopaque. apply detectTokenType_refresh in Hopaque.
  unfold createCompletionV2, createCompletionStreamV2.
  unfold mbind, M_bind, lift, write_log. rewrite Hopaque. simpl.
  split; (split; [eexists; reflexivity | split; reflexivity]).
Qed.

Ltac run_M :=
  unfold mbind, M_bind, mret, M_ret, lift, throw, try_catch_M, write_log,
    new_ConnectRPCClient, client_chatText, client_chat, record_call,
    consume_event, uuid, unixTimestamp.

Lemma get_property_returns (v : JSValue) (p : PropertyName) :
  is_nullish v = false ->
  get_property v p = Ok (value_or_undefined (get_property v p)).
Proof. destruct v; try discriminate; intros _; simpl; try reflexivity.
  destruct p; reflexivity. Qed.

Lemma filter_text_items_spec (items : list JSValue) :
  Forall (fun item => is_nullish item = false) items ->
  filter_text_items items = Ok (List.filter is_text_part items).
Proof.
  induction 1 as [|item items Hitem _ IH]; [reflexivity |].
  simpl. rewrite (get_property_returns item P_type Hitem), IH. simpl.
  unfold is_text_part. rewrite (get_property_returns item P_type Hitem). simpl.
  reflexivity.
Qed.

Lemma map_item_text_spec (items : list JSValue) :
  Forall (fun item => is_nullish item = false) items ->
  map_item_text items
    = Ok ((fun item => value_or_undefined (get_property item P_text)) <$> items).
Proof.
  induction 1 as [|item items Hitem _ IH]; [reflexivity |].
  simpl. rewrite (get_property_returns item P_text Hitem), IH. reflexivity.
Qed.

Lemma Forall_filter_nullish (items : list JSValue) :
  Forall (fun item => is_nullish item = false) items ->
  Forall (fun item => is_nullish item = false) (List.filter is_text_part items).
Proof.
  induction 1 as [|item items Hitem _ IH]; simpl; [constructor |].
  destruct (is_text_part item); [constructor |]; assumption.
Qed.

(** Texts that are strings are joined as they are. *)
Lemma join_elements_plain (kept : list JSValue) (texts : list string) :
  Forall2 (fun item text => plain_text item = Some text) kept texts ->
  join_elements (text_value <$> kept) = Ok texts.
Proof.
  induction 1 as [|item text kept texts Hitem _ IH]; [reflexivity |].
  change (join_elements (text_value <$> item :: kept))
    with (s ← join_element (text_value item);
          ss ← join_elements (text_value <$> kept);
          Ok (s :: ss)).
  rewrite IH. unfold plain_text in Hitem.
  destruct (text_value item); try discriminate; injection Hitem as <-;
    reflexivity.
Qed.

(** One turn of the loop on an event that is not marked done: at most one
    content frame is written and the loop goes on with the next event. *)
Lemma for_of_continue (model : string) (msg : ConnectMessage)
    (rest : list ConnectMessage) (stream : PassThrough) (w : World) :
  done msg = false ->
  exists (frames : list Frame) (w' : World),
    for_of_connectMessages model (msg :: rest) stream w
      = for_of_connectMessages model rest
          {| written := written stream ++ frames; state := state stream |} w' /\
    Forall (fun f => is_content_frame f = true) frames /\
    events_consumed w' = S (events_consumed w) /\
    rpc_clients w' = rpc_clients w /\ rpc_calls w' = rpc_calls w.
Proof.
  intros Hdone. destruct msg as [b d]. simpl in Hdone. subst d.
  destruct stream as [frames0 st].
  destruct b as [[[[c]|]]|]; simpl; run_M; simpl.
  - destruct (JSString.truthy c) eqn:Hc.
    + eexists [_], _. split; [reflexivity |].
      split; [| now repeat split].
      constructor; [| constructor]. simpl. unfold is_content_chunk. simpl.
      exact Hc.
    + exists [], (consume_event w).2. rewrite app_nil_r.
      split; [reflexivity |]. now repeat split.
  - exists [], (consume_event w).2. rewrite app_nil_r.
    split; [reflexivity |]. now repeat split.
  - exists [], (consume_event w).2. rewrite app_nil_r.
    split; [reflexivity |]. now repeat split.
Qed.

(** The loop over a run of events none of which is marked done. *)
Lemma for_of_prefix (model : string) (pre rest : list ConnectMessage) :
  Forall (fun m => done m = false) pre ->
  forall (stream : PassThrough) (w : World),
  exists (frames : list Frame) (w' : World),
    for_of_connectMessages model (pre ++ rest) stream w
      = for_of_connectMessages model rest
          {| written := written stream ++ frames; state := state stream |} w' /\
    Forall (fun f => is_content_frame f = true) frames /\
    events_consumed w' = events_consumed w + length pre /\
    rpc_clients w' = rpc_clients w /\ rpc_calls w' = rpc_calls w.
Proof.
  induction 1 as [|msg pre Hmsg _ IH]; intros stream w.
  - exists [], w. rewrite app_nil_r. destruct stream. simpl.
    repeat split; try reflexivity; [constructor | lia].
  - destruct (for_of_continue model msg (pre ++ rest) stream w Hmsg)
      as (f1 & w1 & Hstep & Hf1 & He1 & Hc1 & Hk1).
    destruct (IH {| written := written stream ++ f1; state := state stream |} w1)
      as (f2 & w2 & Hrest & Hf2 & He2 & Hc2 & Hk2).
    exists (f1 ++ f2), w2. simpl in Hrest.
    rewrite <- app_comm_cons, Hstep, Hrest, <- app_assoc.
    split; [reflexivity |]. split; [now apply Forall_app |].
    simpl. repeat split; [lia | congruence | congruence].
Qed.

(** One turn of the loop on an event marked done: after at most one content
    frame the terminal chunk and the sentinel are written and the loop is
    left; what follows the event is not looked at. *)
Lemma for_of_break (model : string) (d : ConnectMessage)
    (post : list ConnectMessage) (stream : PassThrough) (w : World) :
  done d = true ->
  exists (frames : list Frame) (endChunk : Chunk) (w' : World),
    for_of_connectMessages model (d :: post) stream w
      = (Ok {| written := written stream ++ frames
                            ++ [Frame_data endChunk; DONE_frame];
               state := state stream |}, w') /\
    Forall (fun f => is_content_frame f = true) frames /\
    is_terminal_chunk endChunk = true /\
    events_consumed w' = S (events_consumed w) /\
    rpc_clients w' = rpc_clients w /\ rpc_calls w' = rpc_calls w.
Proof.
  intros Hdone. destruct d as [b d]. simpl in Hdone. subst d.
  destruct stream as [frames0 st].
  destruct b as [[[[c]|]]|]; simpl; run_M; simpl.
  - destruct (JSString.truthy c) eqn:Hc.
    + eexists [_], _, _. unfold stream_write. simpl.
      rewrite <- !app_assoc. simpl.
      split; [reflexivity |].
      split; [| now repeat split].
      constructor; [| constructor]. simpl. unfold is_content_chunk. simpl.
      exact Hc.
    + eexists [], _, _. unfold stream_write. simpl.
      rewrite <- !app_assoc. simpl.
      split; [reflexivity |]. now repeat split.
  - eexists [], _, _. unfold stream_write. simpl.
    rewrite <- !app_assoc. simpl.
    split; [reflexivity |]. now repeat split.
  - eexists [], _, _. unfold stream_write. simpl.
    rewrite <- !app_assoc. simpl.
    split; [reflexivity |]. now repeat split.
Qed.

Lemma content_frame_only (f : Frame) :
  is_content_frame f = true ->
  is_terminal_frame f = false /\ is_sentinel_frame f = false.
Proof.
  destruct f as [c|raw]; simpl; [| discriminate].
  unfold is_content_chunk, is_terminal_chunk.
  destruct (chunk_choices c) as [|choice [|]]; try discriminate.
  destruct (delta_content (delta choice)), (chunk_finish_reason choice);
    try discriminate; now split.
Qed.

Lemma filter_content_frames (body : list Frame) :
  Forall (fun f => is_content_frame f = true) body ->
  List.filter is_terminal_frame body = [] /\
  List.filter is_sentinel_frame body = [].
Proof.
  induction 1 as [|f body Hf _ [IH1 IH2]]; simpl; [now split |].
  destruct (content_frame_only f Hf) as [-> ->]. now split.
Qed.

(** The loop always returns a stream, and leaves the record of RPC clients
    and calls as it found it. *)
Lemma for_of_returns (model : string) (events : list ConnectMessage) :
  forall (stream : PassThrough) (w : World),
  exists (out : PassThrough) (w' : World),
    for_of_connectMessages model events stream w = (Ok out, w') /\
    rpc_clients w' = rpc_clients w /\ rpc_calls w' = rpc_calls w.
Proof.
  induction events as [|msg events IH]; intros stream w.
  - now exists stream, w.
  - destruct (done msg) eqn:Hdone.
    + destruct (for_of_break model msg events stream w Hdone)
        as (frames & endChunk & w' & -> & _ & _ & _ & Hc & Hk).
      eexists _, w'. now split.
    + destruct (for_of_continue model msg events stream w Hdone)
        as (frames & w' & -> & _ & _ & Hc & Hk).
      destruct (IH {| written := written stream ++ frames;
                      state := state stream |} w') as (out & w'' & -> & Hc' & Hk').
      exists out, w''. split; [reflexivity | split; congruence].
Qed.

(** The streaming entry point on a structured credential whose backend call
    succeeds: the stream the loop leaves, ended. *)
Lemma createCompletionStreamV2_run (model : string) (messages : list JSValue)
    (token : string) (w : World) (text : string)
    (events : list ConnectMessage) (out : PassThrough) (w' : World) :
  detectTokenType token = Ok jwt ->
  lastMessageContent messages = Ok text ->
  rpc_chat (request_config token) text (request_options model) = Ok events ->
  for_of_connectMessages model events new_PassThrough
    (world_at_chat model token text w) = (Ok out, w') ->
  createCompletionStreamV2 model messages token w = (Ok (stream_end out), w').
Proof.
  intros Hjwt Htext Hchat Hloop.
  destruct (reader_returns token) as (Hd & Hs & Hu).
  unfold createCompletionStreamV2. run_M.
  rewrite Hjwt, Htext, Hd, Hs, Hu. simpl.
  fold (request_config token). fold (request_options model).
  rewrite Hchat. simpl. fold (world_at_chat model token text w).
  now rewrite Hloop.
Qed.

(** What each entry point asks of the RPC client once the credential is
    structured and the text of the last message is known. *)
Lemma entry_points_calls (model : string) (messages : list JSValue)
    (token : string) (w : World) (text : string) :
  detectTokenType token = Ok jwt ->
  lastMessageContent messages = Ok text ->
  rpc_calls (createCompletionV2 model messages token w).2
    = rpc_calls w ++ [Call_chatText (request_config token) text (request_options model)] /\
  rpc_calls (createCompletionStreamV2 model messages token w).2
    = rpc_calls w ++ [Call_chat (request_config token) text (request_options model)].
Proof.
  intros Hjwt Htext.
  destruct (reader_returns token) as (Hd & Hs & Hu).
  unfold createCompletionV2, createCompletionStreamV2. run_M.
  rewrite Hjwt, Htext, Hd, Hs, Hu. simpl.
  fold (request_config token). fold (request_options model).
  split.
  - destruct (rpc_chatText (request_config token) text (request_options model))
      as [response|e]; simpl; [| reflexivity].
    destruct (truthy_optional (chatId response)); reflexivity.
  - destruct (rpc_chat (request_config token) text (request_options model))
      as [events|e]; simpl; [| reflexivity].
    fold (world_at_chat model token text w).
    destruct (for_of_returns model events new_PassThrough
                (world_at_chat model token text w)) as (out & w' & -> & _ & Hk).
    exact Hk.
Qed.

(** C5, as amended.  With a last message that has a content: a string
    content is the text verbatim; an array content none of whose elements is
    [null] or [undefined], and in which the text of every element tagged
    "text" is a string (a missing text counting as empty), gives the
    newline-joined texts of those elements (so the empty array gives the
    empty text); a content that is neither a string nor an array gives the
    empty text.  Both entry points hand exactly this text to the RPC
    client. *)
Theorem lastMessageContent_rule (messages : list JSValue)
    (lastMessage c : JSValue) :
  last messages = Some lastMessage ->
  get_property lastMessage P_content = Ok c ->
  (forall s, c = JString s -> lastMessageContent messages = Ok s) /\
  (forall items texts, c = JArray items ->
     Forall (fun item => is_nullish item = false) items ->
     Forall2 (fun item text => plain_text item = Some text)
             (List.filter is_text_part items) texts ->
     lastMessageContent messages = Ok (JSString.join newline texts)) /\
  ((forall s, c <> JString s) -> (forall items, c <> JArray items) ->
     lastMessageContent messages = Ok EmptyString) /\
  (forall model token w text,
     detectTokenType token = Ok jwt ->
     lastMessageContent messages = Ok text ->
     rpc_calls (createCompletionV2 model messages token w).2
       = rpc_calls w
         ++ [Call_chatText (request_config token) text (request_options model)] /\
     rpc_calls (createCompletionStreamV2 model messages token w).2
       = rpc_calls w
         ++ [Call_chat (request_config token) text (request_options model)]).
Proof.
  intros Hlast Hcontent.
  split; [| split; [| split]];
    [| | | intros model token w text Hjwt Htext; now apply entry_points_calls];
    unfold lastMessageContent; rewrite Hlast; simpl; rewrite Hcontent; simpl.
  - intros s ->. reflexivity.
  - intros items texts -> Hitems Htexts.
    rewrite (filter_text_items_spec items Hitems). simpl.
    rewrite (map_item_text_spec _ (Forall_filter_nullish items Hitems)). simpl.
    fold text_value. now rewrite (join_elements_plain _ _ Htexts).
  - intros Hs Ha. destruct c; try reflexivity.
    + now elim (Hs s).
    + now elim (Ha items).
Qed.

(** C8. A successful [createCompletionV2] reports as [prompt_tokens] the
    length of the extracted prompt text, as [completion_tokens] the length
    of the text the backend answered, and as [total_tokens] their sum; for a
    single user message "Hi" the prompt count is 2. *)
Theorem createCompletionV2_usage (model : string) (messages : list JSValue)
    (token : string) (w : World) (result : CompletionResult) :
  (createCompletionV2 model messages token w).1 = Ok result ->
  (exists (text : string) (response : ChatTextResponse),
     lastMessageContent messages = Ok text /\
     rpc_chatText (request_config token) text (request_options model)
       = Ok response /\
     prompt_tokens (usage result) = String.length text /\
     completion_tokens (usage result) = String.length (response_text response) /\
     total_tokens (usage result)
       = String.length text + String.length (response_text response)) /\
  (messages = [user_message (JString "Hi")] ->
   prompt_tokens (usage result) = 2).
Proof.
  intros Hrun.
  assert (Hmain : exists (text : string) (response : ChatTextResponse),
     lastMessageContent messages = Ok text /\
     rpc_chatText (request_config token) text (request_options model)
       = Ok response /\
     prompt_tokens (usage result) = String.length text /\
     completion_tokens (usage result) = String.length (response_text response) /\
     total_tokens (usage result)
       = String.length text + String.length (response_text response)).
  { destruct (reader_returns token) as (Hd & Hs & Hu).
    unfold createCompletionV2 in Hrun. revert Hrun. run_M.
    destruct (detectTokenType_cases token) as [(_ & _ & ->) | (_ & ->)];
      simpl; [| discriminate].
    destruct (lastMessageContent messages) as [text|e]; simpl; [| discriminate].
    rewrite Hd, Hs, Hu. simpl.
    fold (request_config token). fold (request_options model).
    destruct (rpc_chatText (request_config token) text (request_options model))
      as [response|e] eqn:Hresponse; simpl; [| discriminate].
    destruct (truthy_optional (chatId response)); simpl;
      intros [= <-]; exists text, response; now repeat split. }
  split; [exact Hmain |].
  intros ->. destruct Hmain as (text & response & Htext & _ & -> & _).
  injection Htext as <-. reflexivity.
Qed.

(** C4. When the backend sequence holds an event marked done, the stream
    carries the content frames of the events up to and including it, then
    exactly one terminal chunk (empty delta, finish reason "stop"), then
    exactly one sentinel frame, and is ended; the events read are those up
    to the done event and no more, whatever follows it. *)
Theorem stream_stops_at_done (model : string) (messages : list JSValue)
    (token : string) (w : World) (text : string)
    (pre : list ConnectMessage) (d : ConnectMessage) (post : list ConnectMessage) :
  detectTokenType token = Ok jwt ->
  lastMessageContent messages = Ok text ->
  rpc_chat (request_config token) text (request_options model)
    = Ok (pre ++ d :: post) ->
  Forall (fun m => done m = false) pre ->
  done d = true ->
  exists (stream : PassThrough) (body : list Frame) (endChunk : Chunk),
    (createCompletionStreamV2 model messages token w).1 = Ok stream /\
    state stream = Ended /\
    written stream = body ++ [Frame_data endChunk; DONE_frame] /\
    Forall (fun f => is_content_frame f = true) body /\
    is_terminal_chunk endChunk = true /\
    length (List.filter is_terminal_frame (written stream)) = 1 /\
    length (List.filter is_sentinel_frame (written stream)) = 1 /\
    events_consumed (createCompletionStreamV2 model messages token w).2
      = events_consumed w + length pre + 1.
Proof.
  intros Hjwt Htext Hchat Hpre Hdone.
  destruct (for_of_prefix model pre (d :: post) Hpre new_PassThrough
              (world_at_chat model token text w))
    as (f1 & w1 & Hloop1 & Hf1 & He1 & _ & _).
  destruct (for_of_break model d post
              {| written := written new_PassThrough ++ f1;
                 state := state new_PassThrough |} w1 Hdone)
    as (f2 & endChunk & w2 & Hloop2 & Hf2 & Hend & He2 & _ & _).
  rewrite Hloop2 in Hloop1.
  rewrite (createCompletionStreamV2_run model messages token w text _ _ _
             Hjwt Htext Hchat Hloop1).
  simpl in *.
  assert (Hbody : Forall (fun f => is_content_frame f = true) (f1 ++ f2))
    by now apply Forall_app.
  destruct (filter_content_frames _ Hf1) as [Hnt1 Hns1].
  destruct (filter_content_frames _ Hf2) as [Hnt2 Hns2].
  exists (stream_end {| written := f1 ++ f2 ++ [Frame_data endChunk; DONE_frame];
                        state := Flowing |}), (f1 ++ f2), endChunk.
  simpl. rewrite !List.filter_app, Hnt1, Hns1, Hnt2, Hns2. simpl. rewrite Hend.
  rewrite <- app_assoc.
  repeat split; try assumption; try reflexivity. lia.
Qed.

(** C10. When the backend sequence ends without an event marked done, the
    stream is ended after the last event, every frame on it is a content
    frame, so that neither a terminal chunk nor the sentinel was written,
    and every event was read. *)
Theorem stream_without_done (model : string) (messages : list JSValue)
    (token : string) (w : World) (text : string) (events : list ConnectMessage) :
  detectTokenType token = Ok jwt ->
  lastMessageContent messages = Ok text ->
  rpc_chat (request_config token) text (request_options model) = Ok events ->
  Forall (fun m => done m = false) events ->
  exists stream : PassThrough,
    (createCompletionStreamV2 model messages token w).1 = Ok stream /\
    state stream = Ended /\
    Forall (fun f => is_content_frame f = true) (written stream) /\
    List.filter is_terminal_frame (written stream) = [] /\
    List.filter is_sentinel_frame (written stream) = [] /\
    ~ In DONE_frame (written stream) /\
    events_consumed (createCompletionStreamV2 model messages token w).2
      = events_consumed w + length events.
Proof.
  intros Hjwt Htext Hchat Hnone.
  destruct (for_of_prefix model events [] Hnone new_PassThrough
              (world_at_chat model token text w))
    as (frames & w1 & Hloop & Hframes & He & _ & _).
  rewrite app_nil_r in Hloop. simpl in Hloop.
  rewrite (createCompletionStreamV2_run model messages token w text _ _ _
             Hjwt Htext Hchat Hloop).
  destruct (filter_content_frames _ Hframes) as [Hnt Hns].
  eexists. simpl. repeat split; try assumption; try reflexivity.
  intros Hin. rewrite List.Forall_forall in Hframes.
  specialize (Hframes _ Hin). discriminate.
Qed.

End EntryPoints.

(** ** The entry points on concrete requests *)

Lemma opaque_credential_rejected_before_rpc_witness :
  @detectTokenType Node.platform "opaque-refresh-token" <> Ok jwt /\
  rpc_clients
    (@createCompletionV2 Node.platform Scripted.with_done "kimi-k2.5"
       [user_message (JString "Hi")] "opaque-refresh-token" initial_world).2 = [] /\
  rpc_calls
    (@createCompletionV2 Node.platform Scripted.with_done "kimi-k2.5"
       [user_message (JString "Hi")] "opaque-refresh-token" initial_world).2 = [] /\
  rpc_clients
    (@createCompletionStreamV2 Node.platform Scripted.with_done "kimi-k2.5"
       [user_message (JString "Hi")] "opaque-refresh-token" initial_world).2 = [] /\
  rpc_calls
    (@createCompletionStreamV2 Node.platform Scripted.with_done "kimi-k2.5"
       [user_message (JString "Hi")] "opaque-refresh-token" initial_world).2 = [].
Proof.
  assert (H : @detectTokenType Node.platform "opaque-refresh-token" <> Ok jwt)
    by (vm_compute; discriminate).
  split; [exact H |].
  destruct (@opaque_credential_rejected_before_rpc Node.platform Scripted.with_done
              "kimi-k2.5" [user_message (JString "Hi")] "opaque-refresh-token"
              initial_world H) as [(_ & H1 & H2) (_ & H3 & H4)].
  repeat split; assumption.
Defined.

Lemma lastMessageContent_rule_witness :
  @lastMessageContent Node.platform
    [user_message (JString "earlier");
     user_message
       (JArray [JObject [("type", JString "text"); ("text", JString "a")];
                JObject [("type", JString "image"); ("url", JString "u")];
                JObject [("type", JString "text"); ("text", JString "b")]])]
  = Ok ("a" +:+ newline +:+ "b").
Proof.
  refine (proj1 (proj2
    (@lastMessageContent_rule Node.platform Scripted.with_done
       [user_message (JString "earlier");
        user_message
          (JArray [JObject [("type", JString "text"); ("text", JString "a")];
                   JObject [("type", JString "image"); ("url", JString "u")];
                   JObject [("type", JString "text"); ("text", JString "b")]])]
       _ _ eq_refl eq_refl)) _ ["a"; "b"] eq_refl _ _).
  - repeat constructor.
  - simpl. repeat constructor.
Defined.

(** An array content with a [null] element is neither a string nor a list of
    typed parts, and the extraction raises a [TypeError] on it. *)
Lemma lastMessageContent_null_part_counterexample :
  ~ (forall (messages : list JSValue) (lastMessage c : JSValue),
       last messages = Some lastMessage ->
       get_property lastMessage P_content = Ok c ->
       (forall s, c <> JString s) ->
       ~ list_of_typed_parts c ->
       @lastMessageContent Node.platform messages = Ok EmptyString).
Proof.
  intros H.
  specialize (H [user_message (JArray [JNull])] (user_message (JArray [JNull]))
                (JArray [JNull]) eq_refl eq_refl).
  assert (Hs : forall s, JArray [JNull] <> JString s) by (intros s; discriminate).
  assert (Hp : ~ list_of_typed_parts (JArray [JNull])).
  { intros (items & [= <-] & Hparts). inversion Hparts as [|x l Hx Hl]; subst.
    destruct Hx as (fields & tag & Hobj & _). discriminate. }
  specialize (H Hs Hp). vm_compute in H. discriminate.
Qed.

Example lastMessageContent_null_part_raises :
  @lastMessageContent Node.platform [user_message (JArray [JNull])]
    = Throw TypeError.
Proof. reflexivity. Qed.

(** A part tagged "text" whose text is an object with an own [toString]
    that is not callable: [join] cannot convert it and raises. *)
Example lastMessageContent_unconvertible_text_raises :
  @lastMessageContent Node.platform
    [user_message
       (JArray [JObject [("type", JString "text");
                         ("text", JObject [("toString", JNull)])]])]
    = Throw TypeError.
Proof. reflexivity. Qed.

Lemma createCompletionV2_usage_witness :
  exists result : CompletionResult,
    (@createCompletionV2 Node.platform Scripted.with_done "kimi-k2.5"
       [user_message (JString "Hi")] Scripted.access_token initial_world).1
      = Ok result /\
    completion_object result = "chat.completion" /\
    prompt_tokens (usage result) = 2.
Proof.
  eexists. split; [vm_compute; reflexivity |].
  split; [reflexivity |].
  refine (proj2 (@createCompletionV2_usage Node.platform Scripted.with_done
                   "kimi-k2.5" [user_message (JString "Hi")]
                   Scripted.access_token initial_world _ _) eq_refl).
  vm_compute. reflexivity.
Defined.

Lemma stream_stops_at_done_witness :
  exists (stream : PassThrough) (body : list Frame) (endChunk : Chunk),
    (@createCompletionStreamV2 Node.platform Scripted.with_done "kimi-k2.5"
       [user_message (JString "Hi")] Scripted.access_token initial_world).1
      = Ok stream /\
    state stream = Ended /\
    written stream = body ++ [Frame_data endChunk; DONE_frame] /\
    Forall (fun f => is_content_frame f = true) body /\
    is_terminal_chunk endChunk = true /\
    length (List.filter is_terminal_frame (written stream)) = 1 /\
    length (List.filter is_sentinel_frame (written stream)) = 1 /\
    events_consumed
      (@createCompletionStreamV2 Node.platform Scripted.with_done "kimi-k2.5"
         [user_message (JString "Hi")] Scripted.access_token initial_world).2
      = 0 + 3 + 1.
Proof.
  refine (@stream_stops_at_done Node.platform Scripted.with_done "kimi-k2.5"
            [user_message (JString "Hi")] Scripted.access_token initial_world
            "Hi" Scripted.events_before_done Scripted.done_event
            Scripted.events_after_done _ eq_refl eq_refl _ eq_refl).
  - vm_compute. reflexivity.
  - repeat constructor.
Defined.

Lemma stream_without_done_witness :
  exists stream : PassThrough,
    (@createCompletionStreamV2 Node.platform Scripted.without_done "kimi-k2.5"
       [user_message (JString "Hi")] Scripted.access_token initial_world).1
      = Ok stream /\
    state stream = Ended /\
    Forall (fun f => is_content_frame f = true) (written stream) /\
    List.filter is_terminal_frame (written stream) = [] /\
    List.filter is_sentinel_frame (written stream) = [] /\
    ~ In DONE_frame (written stream) /\
    events_consumed
      (@createCompletionStreamV2 Node.platform Scripted.without_done "kimi-k2.5"
         [user_message (JString "Hi")] Scripted.access_token initial_world).2
      = 0 + 3.
Proof.
  refine (@stream_without_done Node.platform Scripted.without_done "kimi-k2.5"
            [user_message (JString "Hi")] Scripted.access_token initial_world
            "Hi" Scripted.events_before_done _ eq_refl eq_refl _).
  - vm_compute. reflexivity.
  - repeat constructor.
Defined.

(** The frames of the two scripted streams. *)
Example frames_with_done :
  (@createCompletionStreamV2 Node.platform Scripted.with_done "kimi-k2.5"
     [user_message (JString "Hi")] Scripted.access_token initial_world).1
  = Ok {| written :=
            [Frame_data (content_chunk "chatcmpl-0" 1700000000 "kimi-k2.5" "Hel");
             Frame_data (content_chunk "chatcmpl-1" 1700000001 "kimi-k2.5" "lo");
             Frame_data (terminal_chunk "chatcmpl-2" 1700000002 "kimi-k2.5");
             DONE_frame];
          state := Ended |}.
Proof. vm_compute. reflexivity. Qed.

Example frames_without_done :
  (@createCompletionStreamV2 Node.platform Scripted.without_done "kimi-k2.5"
     [user_message (JString "Hi")] Scripted.access_token initial_world).1
  = Ok {| written :=
            [Frame_data (content_chunk "chatcmpl-0" 1700000000 "kimi-k2.5" "Hel");
             Frame_data (content_chunk "chatcmpl-1" 1700000001 "kimi-k2.5" "lo")];
          state := Ended |}.
Proof. vm_compute. reflexivity. Qed.

(** The examples of the specification for the scenario resolver. *)
Example resolveScenario_examples :
  (resolveScenario "kimi-k2.5-search"
     = {| scenario := SCENARIO_K2; thinking := false |}) /\
  (resolveScenario "kimi-k2.5-thinking"
     = {| scenario := SCENARIO_K2; thinking := true |}) /\
  (scenario (resolveScenario "kimi-k1") = SCENARIO_K1) /\
  (scenario (resolveScenario "kimi-search") = SCENARIO_SEARCH) /\
  (scenario (resolveScenario "kimi-unknown") = SCENARIO_K2).
Proof. repeat split. Qed.

(** * Further properties of the controller *)

(** ** Credential extraction *)

Section ExtractionProperties.

Import JSString.

Lemma trimEnd_idempotent (s : string) : trimEnd (trimEnd s) = trimEnd s.
Proof.
  induction s as [|c s IH]; [reflexivity |].
  simpl. destruct (trimEnd s) as [|d r] eqn:Hs.
  - destruct (is_white_space c) eqn:Hc; [reflexivity |].
    simpl. now rewrite Hc.
  - change (trimEnd (String c (String d r))) with
      (match trimEnd (String d r) with
       | EmptyString => if is_white_space c then EmptyString else String c EmptyString
       | r' => String c r'
       end).
    now rewrite IH.
Qed.

Lemma trimEnd_keeps_head (c : ascii) (s : string) :
  is_white_space c = false -> trimEnd (String c s) = String c (trimEnd s).
Proof.
  intros Hc. simpl. destruct (trimEnd s); [now rewrite Hc | reflexivity].
Qed.

Lemma trimStart_head (s : string) :
  trimStart s = EmptyString \/
  exists c r, trimStart s = String c r /\ is_white_space c = false.
Proof.
  induction s as [|c s IH]; [now left |].
  simpl. destruct (is_white_space c) eqn:Hc; [exact IH |].
  right. now exists c, s.
Qed.

(** A trimmed string is a fixed point of all three trimming functions. *)
Lemma trim_fixed (s : string) :
  trimStart (trim s) = trim s /\ trimEnd (trim s) = trim s /\
  trim (trim s) = trim s.
Proof.
  unfold trim.
  destruct (trimStart_head s) as [-> | (c & r & -> & Hc)]; [now repeat split |].
  rewrite (trimEnd_keeps_head c r Hc).
  assert (H1 : trimStart (String c (trimEnd r)) = String c (trimEnd r))
    by (simpl; now rewrite Hc).
  assert (H2 : trimEnd (String c (trimEnd r)) = String c (trimEnd r))
    by (rewrite (trimEnd_keeps_head c _ Hc); now rewrite trimEnd_idempotent).
  repeat split; [exact H1 | exact H2 | now rewrite H1, H2].
Qed.

Lemma no_white_space_app (a b : string) :
  no_white_space (a +:+ b) = no_white_space a && no_white_space b.
Proof.
  induction a as [|c a IH]; [reflexivity |].
  simpl. now rewrite IH, andb_assoc.
Qed.

Lemma no_white_space_trimStart (s : string) :
  no_white_space s = true -> trimStart s = s.
Proof.
  destruct s as [|c s]; [reflexivity |].
  simpl. destruct (is_white_space c); [discriminate | reflexivity].
Qed.

Lemma no_white_space_trimEnd (s : string) :
  no_white_space s = true -> trimEnd s = s.
Proof.
  induction s as [|c s IH]; [reflexivity |].
  simpl. destruct (is_white_space c) eqn:Hc; [discriminate |].
  simpl. intros Hs. rewrite (IH Hs). destruct s; reflexivity.
Qed.

Lemma match_literal_i_suffix (lit s r : string) :
  match_literal_i lit s = Some r -> exists pre, s = pre +:+ r.
Proof.
  revert s; induction lit as [|p lit IH]; intros s; simpl.
  - intros [= ->]. now exists EmptyString.
  - destruct s as [|c s]; [discriminate |].
    destruct (Ascii.eqb (canonicalize c) (canonicalize p)); [| discriminate].
    intros H. destruct (IH s H) as [pre ->]. now exists (String c pre).
Qed.

(** Without white space the pattern [/^Bearer\s+/i] has nothing to match. *)
Lemma no_white_space_keeps_prefix (s : string) :
  no_white_space s = true -> replace_bearer_prefix s = s.
Proof.
  intros Hs. unfold replace_bearer_prefix.
  destruct (match_literal_i "Bearer" s) as [[|c rest]|] eqn:Hm; try reflexivity.
  destruct (match_literal_i_suffix _ _ _ Hm) as [pre ->].
  rewrite no_white_space_app in Hs. apply andb_prop in Hs as [_ Hs].
  simpl in Hs. destruct (is_white_space c); [discriminate | reflexivity].
Qed.

Lemma selected_header_authorization (headers : gmap string string) (a : string) :
  headers !! "authorization" = Some a -> a <> EmptyString ->
  selected_header headers = Some a.
Proof.
  intros Ha Hne. unfold selected_header. rewrite Ha.
  destruct a; [now elim Hne | reflexivity].
Qed.

(** X1. A non-empty [authorization] header decides the outcome alone: two
    header sets that carry the same non-empty [authorization] give the same
    result, whatever [x-goog-api-key] holds in either.  In particular there
    is no fallback to the key when the [authorization] value is rejected. *)
Theorem authorization_takes_priority
    (headers headers' : gmap string string) (a : string) (w w' : World) :
  headers !! "authorization" = Some a ->
  headers' !! "authorization" = Some a ->
  a <> EmptyString ->
  (extractAuthToken headers w).1 = (extractAuthToken headers' w').1.
Proof.
  intros H1 H2 Hne.
  destruct (extractAuthToken_run headers w) as (-> & _).
  destruct (extractAuthToken_run headers' w') as (-> & _).
  now rewrite (selected_header_authorization headers a H1 Hne),
              (selected_header_authorization headers' a H2 Hne).
Qed.

(** X2. A token that the extractor returns is never empty and carries no
    white space at either end: trimming it again changes nothing. *)
Theorem extracted_token_is_trimmed
    (headers : gmap string string) (w : World) (token : string) :
  (extractAuthToken headers w).1 = Ok token ->
  token <> EmptyString /\
  trimStart token = token /\ trimEnd token = token /\ trim token = token.
Proof.
  destruct (extractAuthToken_run headers w) as (-> & _).
  destruct (selected_header headers) as [h|]; [| discriminate].
  destruct (truthy (normalized h)) eqn:Ht; [| discriminate].
  intros [= <-]. split.
  - intros Hempty. rewrite Hempty in Ht. discriminate.
  - unfold normalized. apply trim_fixed.
Qed.

(** X3. A credential without white space arrives unchanged by each of the
    three ways of sending it: bare in [authorization], behind the word
    Bearer in [authorization], or in [x-goog-api-key] when [authorization]
    is absent. *)
Theorem credential_delivery_forms
    (headers : gmap string string) (w : World) (token : string) :
  token <> EmptyString ->
  no_white_space token = true ->
  (headers !! "authorization" = Some token ->
   (extractAuthToken headers w).1 = Ok token) /\
  (headers !! "authorization" = Some ("Bearer " +:+ token) ->
   (extractAuthToken headers w).1 = Ok token) /\
  (headers !! "authorization" = None ->
   headers !! "x-goog-api-key" = Some token ->
   (extractAuthToken headers w).1 = Ok token).
Proof.
  intros Hne Hws.
  assert (Htrim : trim token = token)
    by (unfold trim; now rewrite (no_white_space_trimStart _ Hws),
                                 (no_white_space_trimEnd _ Hws)).
  assert (Htruthy : truthy token = true) by (destruct token; [now elim Hne | reflexivity]).
  destruct (extractAuthToken_run headers w) as (-> & _).
  split; [| split].
  - intros Ha. rewrite (selected_header_authorization headers token Ha Hne).
    unfold normalized. rewrite (no_white_space_keeps_prefix _ Hws), Htrim, Htruthy.
    reflexivity.
  - intros Ha. rewrite (selected_header_authorization headers _ Ha);
      [| discriminate].
    unfold normalized. rewrite replace_synthesized_prefix, trim_trimStart, Htrim,
      Htruthy. reflexivity.
  - intros Ha Hk. unfold selected_header. rewrite Ha, Hk.
    destruct token as [|c rest]; [now elim Hne |].
    unfold normalized. rewrite replace_synthesized_prefix, trim_trimStart, Htrim,
      Htruthy. reflexivity.
Qed.

(** X4. On every path, failing ones included, the extractor first writes to
    the console the complete header set and the values of both credential
    headers, and leaves every other part of the world as it was: no RPC
    client is constructed, no RPC call is made, no event is read, no
    identifier and no timestamp is drawn. *)
Theorem extractAuthToken_console
    (headers : gmap string string) (w : World) :
  (extractAuthToken headers w).2
    = {| log := log w
                ++ [Console_headers headers;
                    Console_value "DEBUG: Auth header found:"
                      (headers !! "authorization");
                    Console_value "DEBUG: API key found:"
                      (headers !! "x-goog-api-key")];
         rpc_clients := rpc_clients w;
         rpc_calls := rpc_calls w;
         events_consumed := events_consumed w;
         uuids_drawn := uuids_drawn w;
         clock_reads := clock_reads w |}.
Proof.
  unfold extractAuthToken.
  unfold mbind, M_bind, mret, M_ret, write_log, throw.
  cbv beta iota zeta.
  destruct (negb (truthy_optional (headers !! "authorization"))
            && truthy_optional (headers !! "x-goog-api-key"));
    match goal with
    | |- context [if negb (truthy_optional ?h) then _ else _] =>
        destruct (negb (truthy_optional h))
    end; cbv beta iota zeta;
    repeat match goal with
    | |- context [if negb (truthy ?t) then _ else _] => destruct (negb (truthy t))
    end; simpl; rewrite <- !app_assoc; reflexivity.
Qed.

End ExtractionProperties.

Lemma authorization_takes_priority_witness :
  (extractAuthToken
     {[ "authorization" := "Bearer  "; "x-goog-api-key" := "sk-valid" ]}
     initial_world).1
  = (extractAuthToken {[ "authorization" := "Bearer  " ]} initial_world).1 /\
  (extractAuthToken {[ "authorization" := "Bearer  " ]} initial_world).1
  = Throw Invalid_credential_format.
Proof.
  split; [| vm_compute; reflexivity].
  apply (authorization_takes_priority _ _ "Bearer  " initial_world initial_world).
  - vm_compute. reflexivity.
  - vm_compute. reflexivity.
  - discriminate.
Defined.

Lemma extracted_token_is_trimmed_witness :
  (extractAuthToken {[ "x-goog-api-key" := "  sk 1  " ]} initial_world).1
    = Ok "sk 1" /\
  JSString.trim "sk 1" = "sk 1".
Proof.
  assert (H : (extractAuthToken {[ "x-goog-api-key" := "  sk 1  " ]}
                 initial_world).1 = Ok "sk 1") by (vm_compute; reflexivity).
  split; [exact H |].
  exact (proj2 (proj2 (proj2 (extracted_token_is_trimmed _ _ _ H)))).
Defined.

Lemma credential_delivery_forms_witness :
  (extractAuthToken {[ "authorization" := "sk-1" ]} initial_world).1 = Ok "sk-1" /\
  (extractAuthToken {[ "authorization" := "Bearer sk-1" ]} initial_world).1
    = Ok "sk-1" /\
  (extractAuthToken {[ "x-goog-api-key" := "sk-1" ]} initial_world).1 = Ok "sk-1".
Proof.
  assert (Hne : "sk-1" <> EmptyString) by discriminate.
  assert (Hws : no_white_space "sk-1" = true) by reflexivity.
  split; [| split].
  - apply (proj1 (credential_delivery_forms
                    {[ "authorization" := "sk-1" ]} initial_world "sk-1" Hne Hws)).
    vm_compute. reflexivity.
  - apply (proj1 (proj2 (credential_delivery_forms
                    {[ "authorization" := "Bearer sk-1" ]} initial_world "sk-1"
                    Hne Hws))).
    vm_compute. reflexivity.
  - apply (proj2 (proj2 (credential_delivery_forms
                    {[ "x-goog-api-key" := "sk-1" ]} initial_world "sk-1"
                    Hne Hws))); vm_compute; reflexivity.
Defined.

(** ** Classification, claims and scenarios *)

Section ClassificationProperties.

Context `{P : Platform}.

Lemma split_free (s : string) :
  free_of "." s = true -> JSString.split "." s = [s].
Proof.
  induction s as [|c s IH]; [reflexivity |].
  simpl. destruct (Ascii.eqb c "."); [discriminate |].
  simpl. intros Hs. now rewrite (IH Hs).
Qed.

Lemma split_segment (a rest : string) :
  free_of "." a = true ->
  JSString.split "." (a +:+ "." +:+ rest) = a :: JSString.split "." rest.
Proof.
  induction a as [|c a IH]; [reflexivity |].
  simpl. destruct (Ascii.eqb c "."); [discriminate |].
  simpl. intros Ha. simpl in IH. now rewrite (IH Ha).
Qed.

Lemma split_three_segments (h m s : string) :
  free_of "." h = true -> free_of "." m = true -> free_of "." s = true ->
  JSString.split "." (three_segments h m s) = [h; m; s].
Proof.
  intros Hh Hm Hs. unfold three_segments.
  now rewrite (split_segment h _ Hh), (split_segment m _ Hm), (split_free s Hs).
Qed.

(** The marker can only sit in the first segment: a dot is none of its
    three code units. *)
Lemma startsWith_marker (h rest : string) :
  JSString.startsWith (h +:+ "." +:+ rest) "eyJ" = JSString.startsWith h "eyJ".
Proof.
  destruct h as [|a [|b [|c h]]]; simpl; try reflexivity;
    repeat match goal with
    | |- context [Ascii.eqb ?x ?y] => destruct (Ascii.eqb x y); try reflexivity
    end.
Qed.

(** X5. Classification is structural: it looks at the marker of the first
    segment and at the claims of the middle one and never at the signature,
    so replacing the third segment of a credential leaves its class
    unchanged; each claims reader looks at the middle segment alone. *)
Theorem signature_is_not_inspected (h h' m s s' : string) :
  free_of "." h = true -> free_of "." h' = true -> free_of "." m = true ->
  free_of "." s = true -> free_of "." s' = true ->
  detectTokenType (three_segments h m s) = detectTokenType (three_segments h m s') /\
  Forall (fun read => read (three_segments h m s) = read (three_segments h' m s'))
         claims_readers.
Proof.
  intros Hh Hh' Hm Hs Hs'.
  split.
  - unfold detectTokenType.
    rewrite (split_three_segments h m s Hh Hm Hs),
            (split_three_segments h m s' Hh Hm Hs').
    unfold three_segments. now rewrite !startsWith_marker.
  - unfold claims_readers, extractDeviceIdFromJWT, extractSessionIdFromJWT,
      extractUserIdFromJWT.
    repeat first [apply List.Forall_cons | apply List.Forall_nil]; cbv beta;
      now rewrite (split_three_segments h m s Hh Hm Hs),
                  (split_three_segments h' m s' Hh' Hm Hs').
Qed.

(** X6. For a structured credential the three claims readers return the
    [device_id], [ssid] and [sub] fields of the very object the classifier
    accepted, [undefined] standing for a field the object lacks. *)
Theorem structured_credential_claims (token : string) :
  detectTokenType token = Ok jwt ->
  exists fields : list (string * JSValue),
    decoded_claims token = Ok (JObject fields) /\
    own_property "app_id" fields = Some (JString "kimi") /\
    own_property "typ" fields = Some (JString "access") /\
    extractDeviceIdFromJWT token
      = Ok (default JUndefined (own_property "device_id" fields)) /\
    extractSessionIdFromJWT token
      = Ok (default JUndefined (own_property "ssid" fields)) /\
    extractUserIdFromJWT token
      = Ok (default JUndefined (own_property "sub" fields)).
Proof.
  intros Hjwt.
  destruct (detectTokenType_cases token)
    as [(_ & (h & m & s & fields & Hsplit & Hparse & Happ & Hty) & _) | (_ & Href)];
    [| congruence].
  exists fields.
  assert (Hdecoded : decoded_claims token = Ok (JObject fields)).
  { unfold decoded_claims. rewrite Hsplit. simpl.
    unfold JSON_parse_throwing. now rewrite Hparse. }
  assert (Hd : extractDeviceIdFromJWT token = _) by apply reader_total.
  assert (Hs : extractSessionIdFromJWT token = _) by apply reader_total.
  assert (Hu : extractUserIdFromJWT token = _) by apply reader_total.
  rewrite Hdecoded in Hd, Hs, Hu.
  repeat split; assumption.
Qed.

(** X7. The RESEARCH scenario is never selected: a model name that contains
    "research" contains "search", which is tested first, so such a name
    resolves to SEARCH unless it contains "k2.5". *)
Theorem research_resolves_to_search (model : string) :
  scenario (resolveScenario model) <> SCENARIO_RESEARCH /\
  (Contains model "research" -> ~ Contains model "k2.5" ->
   scenario (resolveScenario model) = SCENARIO_SEARCH).
Proof.
  assert (Hsub : Contains model "research" -> Contains model "search").
  { intros (pre & post & ->). exists (pre +:+ "re"), post.
    induction pre as [|c pre IH]; [reflexivity |].
    change (String c (pre +:+ "research" +:+ post)
            = String c ((pre +:+ "re") +:+ "search" +:+ post)).
    now rewrite IH. }
  unfold resolveScenario.
  destruct (JSString.includes model "k2.5") eqn:Hk25.
  - split; [discriminate |]. intros _ Hno. apply includes_Contains in Hk25.
    contradiction.
  - destruct (JSString.includes model "search") eqn:Hsearch.
    + split; [discriminate | reflexivity].
    + apply includes_not_Contains in Hsearch.
      destruct (JSString.includes model "research") eqn:Hresearch.
      * apply includes_Contains in Hresearch. elim Hsearch. now apply Hsub.
      * split.
        -- destruct (JSString.includes model "k1"); discriminate.
        -- intros Hr _. elim Hsearch. now apply Hsub.
Qed.

End ClassificationProperties.

Lemma signature_is_not_inspected_witness :
  @detectTokenType Node.platform
    (three_segments "eyJhbGciOiJIUzUxMiJ9"
       "eyJhcHBfaWQiOiJraW1pIiwidHlwIjoiYWNjZXNzIn0" "c2ln")
  = @detectTokenType Node.platform
      (three_segments "eyJhbGciOiJIUzUxMiJ9"
         "eyJhcHBfaWQiOiJraW1pIiwidHlwIjoiYWNjZXNzIn0" "forged") /\
  @detectTokenType Node.platform
    (three_segments "eyJhbGciOiJIUzUxMiJ9"
       "eyJhcHBfaWQiOiJraW1pIiwidHlwIjoiYWNjZXNzIn0" "forged") = Ok jwt.
Proof.
  split; [| vm_compute; reflexivity].
  exact (proj1 (@signature_is_not_inspected Node.platform
                  "eyJhbGciOiJIUzUxMiJ9" "eyJhbGciOiJIUzUxMiJ9"
                  "eyJhcHBfaWQiOiJraW1pIiwidHlwIjoiYWNjZXNzIn0" "c2ln" "forged"
                  eq_refl eq_refl eq_refl eq_refl eq_refl)).
Defined.

Lemma structured_credential_claims_witness :
  @detectTokenType Node.platform Scripted.device_only_token = Ok jwt /\
  exists fields : list (string * JSValue),
    @decoded_claims Node.platform Scripted.device_only_token = Ok (JObject fields) /\
    @extractDeviceIdFromJWT Node.platform Scripted.device_only_token
      = Ok (default JUndefined (own_property "device_id" fields)).
Proof.
  assert (H : @detectTokenType Node.platform Scripted.device_only_token = Ok jwt)
    by (vm_compute; reflexivity).
  split; [exact H |].
  destruct (@structured_credential_claims Node.platform _ H)
    as (fields & Hd & _ & _ & Hdev & _).
  exists fields. split; assumption.
Defined.

Lemma research_resolves_to_search_witness :
  Contains "kimi-research" "research" /\
  ~ Contains "kimi-research" "k2.5" /\
  scenario (resolveScenario "kimi-research") = SCENARIO_SEARCH.
Proof.
  assert (H1 : Contains "kimi-research" "research")
    by (exists "kimi-", EmptyString; reflexivity).
  assert (H2 : ~ Contains "kimi-research" "k2.5")
    by (apply includes_not_Contains; reflexivity).
  split; [exact H1 | split; [exact H2 |]].
  exact (proj2 (research_resolves_to_search "kimi-research") H1 H2).
Defined.

(** ** The entry points *)

Section EntryPointProperties.

Context `{P : Platform} `{C : Collaborators}.

Ltac run_M :=
  unfold mbind, M_bind, mret, M_ret, lift, throw, try_catch_M, write_log,
    new_ConnectRPCClient, client_chatText, client_chat, record_call,
    consume_event, uuid, unixTimestamp.

Lemma get_property_throws (v : JSValue) (p : PropertyName) (e : Exception) :
  get_property v p = Throw e <-> e = TypeError /\ is_nullish v = true.
Proof.
  destruct v; simpl; try (split; [discriminate | intros [_ H]; discriminate]);
    try (split; [intros [= <-]; now split | intros [-> _]; reflexivity]).
  destruct p; split; try discriminate; intros [_ H]; discriminate.
Qed.

Lemma filter_text_items_throws (items : list JSValue) :
  Exists (fun item => is_nullish item = true) items ->
  filter_text_items items = Throw TypeError.
Proof.
  induction items as [|item items IH]; intros Hex; [inversion Hex |].
  simpl. destruct (is_nullish item) eqn:Hitem.
  - now rewrite (proj2 (get_property_throws item P_type TypeError)).
  - rewrite (get_property_returns item P_type Hitem). simpl.
    inversion Hex as [? ? Hhere | ? ? Hrest]; subst; [congruence |].
    now rewrite (IH Hrest).
Qed.

Lemma nullish_dichotomy (items : list JSValue) :
  Forall (fun item => is_nullish item = false) items \/
  Exists (fun item => is_nullish item = true) items.
Proof.
  induction items as [|item items [IH | IH]].
  - left. constructor.
  - destruct (is_nullish item) eqn:Hitem.
    + right. now apply List.Exists_cons_hd.
    + left. now constructor.
  - right. now apply List.Exists_cons_tl.
Qed.

(** The conversions of [join] either all succeed, or there is a first
    element whose conversion raises, and its error is the error of the
    whole. *)
Lemma join_elements_first_failure (kept before after : list JSValue)
    (item : JSValue) (e : Exception) :
  kept = before ++ item :: after ->
  Forall (fun i => exists s, join_element (text_value i) = Ok s) before ->
  join_element (text_value item) = Throw e ->
  join_elements (text_value <$> kept) = Throw e.
Proof.
  intros -> Hbefore Hitem.
  induction Hbefore as [|i before [s Hi] _ IH].
  - simpl. now rewrite Hitem.
  - change (join_elements (text_value <$> (i :: before) ++ item :: after))
      with (s ← join_element (text_value i);
            ss ← join_elements (text_value <$> before ++ item :: after);
            Ok (s :: ss)).
    now rewrite Hi, IH.
Qed.

Lemma join_elements_cases (kept : list JSValue) :
  (exists strs, join_elements (text_value <$> kept) = Ok strs) \/
  (exists before item after e,
     kept = before ++ item :: after /\
     Forall (fun i => exists s, join_element (text_value i) = Ok s) before /\
     join_element (text_value item) = Throw e /\
     join_elements (text_value <$> kept) = Throw e).
Proof.
  induction kept as [|i kept IH]; [left; now exists [] |].
  change (join_elements (text_value <$> i :: kept))
    with (s ← join_element (text_value i);
          ss ← join_elements (text_value <$> kept);
          Ok (s :: ss)).
  destruct (join_element (text_value i)) as [s|e] eqn:Hi.
  - destruct IH as [[strs ->] | (before & item & after & e & -> & Hb & Hitem & ->)].
    + left. now exists (s :: strs).
    + right. exists (i :: before), item, after, e.
      repeat split; try assumption; try reflexivity.
      constructor; [now exists s | exact Hb].
  - right. exists [], i, kept, e. repeat split; try assumption. constructor.
Qed.

(** What the extraction does on an array content: a [null] or [undefined]
    element stops the filter; otherwise the result is that of the
    conversions of [join]. *)
Lemma array_content_outcome (items : list JSValue) :
  (Exists (fun item => is_nullish item = true) items /\
   (kept ← filter_text_items items;
    texts ← map_item_text kept;
    strs ← join_elements texts;
    Ok (JSString.join newline strs)) = Throw TypeError) \/
  (Forall (fun item => is_nullish item = false) items /\
   (kept ← filter_text_items items;
    texts ← map_item_text kept;
    strs ← join_elements texts;
    Ok (JSString.join newline strs))
   = (strs ← join_elements (text_value <$> List.filter is_text_part items);
      Ok (JSString.join newline strs))).
Proof.
  destruct (nullish_dichotomy items) as [Hall | Hex].
  - right. split; [exact Hall |].
    rewrite (filter_text_items_spec items Hall). simpl.
    now rewrite (map_item_text_spec _ (Forall_filter_nullish items Hall)).
  - left. split; [exact Hex |].
    now rewrite (filter_text_items_throws items Hex).
Qed.

Lemma nullish_exclusive (items : list JSValue) :
  Forall (fun item => is_nullish item = false) items ->
  Exists (fun item => is_nullish item = true) items -> False.
Proof.
  rewrite List.Forall_forall, List.Exists_exists.
  intros Hall (x & Hin & Hx). specialize (Hall x Hin). congruence.
Qed.

(** X8. The text extraction raises in exactly these situations.  With a
    [TypeError]: the message list is empty, its last element is [null] or
    [undefined], or the content of the last message is an array with a
    [null] or [undefined] element.  With the error of the conversion: the
    content is an array without such an element, and among its elements
    tagged "text" there is a first one whose text [join] cannot convert to a
    string. *)
Theorem lastMessageContent_raises (messages : list JSValue) (e : Exception) :
  lastMessageContent messages = Throw e <->
  (e = TypeError /\
   (messages = [] \/
    (exists m, last messages = Some m /\ is_nullish m = true) \/
    (exists m items,
       last messages = Some m /\
       get_property m P_content = Ok (JArray items) /\
       Exists (fun item => is_nullish item = true) items))) \/
  (exists m items before item after,
     last messages = Some m /\
     get_property m P_content = Ok (JArray items) /\
     Forall (fun i => is_nullish i = false) items /\
     List.filter is_text_part items = before ++ item :: after /\
     Forall (fun i => exists s, join_element (text_value i) = Ok s) before /\
     join_element (text_value item) = Throw e).
Proof.
  unfold lastMessageContent.
  destruct (last messages) as [m|] eqn:Hlast; simpl.
  - destruct (get_property m P_content) as [c|e'] eqn:Hc; simpl.
    + assert (Hm : is_nullish m = false)
        by (destruct m; try reflexivity; discriminate).
      split.
      * intros Hthrow.
        destruct c; try discriminate.
        destruct (array_content_outcome items) as [(Hex & Hbad) | (Hall & Hrest)].
        -- rewrite Hbad in Hthrow. injection Hthrow as <-.
           left. split; [reflexivity |]. right. right. now exists m, items.
        -- rewrite Hrest in Hthrow.
           destruct (join_elements_cases (List.filter is_text_part items))
             as [[strs Hok] | (before & item & after & e0 & Hsplit & Hb & Hitem & Hbad)].
           ++ rewrite Hok in Hthrow. discriminate.
           ++ rewrite Hbad in Hthrow. injection Hthrow as ->.
              right. now exists m, items, before, item, after.
      * intros [(-> & [-> | [(m' & [= <-] & Hn) | (m' & items & [= <-] & Hc' & Hex)]])
               | (m' & items & before & item & after
                  & [= <-] & Hc' & Hall & Hsplit & Hb & Hitem)].
        -- discriminate.
        -- congruence.
        -- rewrite Hc in Hc'. injection Hc' as ->.
           destruct (array_content_outcome items) as [(_ & Hbad) | (Hall & _)];
             [exact Hbad |].
           now elim (nullish_exclusive items Hall Hex).
        -- rewrite Hc in Hc'. injection Hc' as ->.
           destruct (array_content_outcome items) as [(Hex & _) | (_ & Hrest)];
             [now elim (nullish_exclusive items Hall Hex) |].
           rewrite Hrest.
           now rewrite (join_elements_first_failure _ _ _ _ _ Hsplit Hb Hitem).
    + apply get_property_throws in Hc as [-> Hm]. split.
      * intros [= <-]. left. split; [reflexivity |]. right. left. now exists m.
      * intros [[-> _] | (m' & items & before & item & after
                          & [= <-] & Hc' & _)]; [reflexivity |].
        destruct m; discriminate.
  - apply last_None in Hlast. subst messages. split.
    + intros [= <-]. left. split; [reflexivity | now left].
    + intros [[-> _] | (m' & items & before & item & after & Hl & _)];
        [reflexivity | discriminate].
Qed.

(** X9. When the text extraction raises, both entry points fail with that
    very error, and no RPC client is constructed and no operation of it is
    invoked: the streaming entry point rejects, it does not hand out a
    destroyed stream. *)
Theorem unreadable_message_stops_entry_points
    (model : string) (messages : list JSValue) (token : string) (w : World)
    (e : Exception) :
  detectTokenType token = Ok jwt ->
  lastMessageContent messages = Throw e ->
  ((createCompletionV2 model messages token w).1 = Throw e /\
   rpc_clients (createCompletionV2 model messages token w).2 = rpc_clients w /\
   rpc_calls (createCompletionV2 model messages token w).2 = rpc_calls w) /\
  ((createCompletionStreamV2 model messages token w).1 = Throw e /\
   rpc_clients (createCompletionStreamV2 model messages token w).2 = rpc_clients w /\
   rpc_calls (createCompletionStreamV2 model messages token w).2 = rpc_calls w).
Proof.
  intros Hjwt Hthrow.
  unfold createCompletionV2, createCompletionStreamV2. run_M.
  rewrite Hjwt, Hthrow. simpl. now repeat split.
Qed.

(** [createCompletionV2] on a structured credential with a readable
    message, up to the answer of the backend. *)
Lemma createCompletionV2_run (model : string) (messages : list JSValue)
    (token : string) (w : World) (text : string) :
  detectTokenType token = Ok jwt ->
  lastMessageContent messages = Ok text ->
  createCompletionV2 model messages token w =
    match rpc_chatText (request_config token) text (request_options model) with
    | Throw e => (Throw e, world_at_chatText model token text w)
    | Ok response =>
        ((id ← (if truthy_optional (chatId response)
                then mret (default EmptyString (chatId response)) else uuid);
          created ← unixTimestamp;
          mret {| completion_id := id;
                  completion_model := model;
                  completion_object := "chat.completion";
                  choices :=
                    [ {| index := 0;
                         message := {| role := "assistant";
                                       message_content := response_text response |};
                         finish_reason := "stop" |} ];
                  usage :=
                    {| prompt_tokens := String.length text;
                       completion_tokens := String.length (response_text response);
                       total_tokens := String.length text
                                       + String.length (response_text response) |};
                  created := created |})
           : M CompletionResult) (world_at_chatText model token text w)
    end.
Proof.
  intros Hjwt Htext.
  destruct (reader_returns token) as (Hd & Hs & Hu).
  unfold createCompletionV2. run_M.
  rewrite Hjwt, Htext, Hd, Hs, Hu. simpl.
  fold (request_config token). fold (request_options model).
  fold (world_at_chatText model token text w).
  destruct (rpc_chatText (request_config token) text (request_options model));
    reflexivity.
Qed.

(** X10. When [client.chatText] fails, [createCompletionV2] fails with the
    error of the backend, unchanged and without a retry: one client was
    constructed, one call was made, no identifier or timestamp was drawn. *)
Theorem backend_failure_propagates
    (model : string) (messages : list JSValue) (token : string) (w : World)
    (text : string) (e : Exception) :
  detectTokenType token = Ok jwt ->
  lastMessageContent messages = Ok text ->
  rpc_chatText (request_config token) text (request_options model) = Throw e ->
  (createCompletionV2 model messages token w).1 = Throw e /\
  rpc_clients (createCompletionV2 model messages token w).2
    = rpc_clients w ++ [request_config token] /\
  rpc_calls (createCompletionV2 model messages token w).2
    = rpc_calls w
      ++ [Call_chatText (request_config token) text (request_options model)] /\
  uuids_drawn (createCompletionV2 model messages token w).2 = uuids_drawn w /\
  clock_reads (createCompletionV2 model messages token w).2 = clock_reads w.
Proof.
  intros Hjwt Htext Hfail.
  rewrite (createCompletionV2_run model messages token w text Hjwt Htext), Hfail.
  now repeat split.
Qed.

(** X11. The identifier of a completion is the chat identifier of the
    backend when that is a non-empty string, and then no identifier is
    generated; when the backend sends none, or an empty one, it is a freshly
    generated identifier. *)
Theorem completion_identifier
    (model : string) (messages : list JSValue) (token : string) (w : World)
    (text : string) (response : ChatTextResponse) :
  detectTokenType token = Ok jwt ->
  lastMessageContent messages = Ok text ->
  rpc_chatText (request_config token) text (request_options model) = Ok response ->
  exists result : CompletionResult,
    (createCompletionV2 model messages token w).1 = Ok result /\
    (forall id, chatId response = Some id -> id <> EmptyString ->
       completion_id result = id /\
       uuids_drawn (createCompletionV2 model messages token w).2 = uuids_drawn w) /\
    (chatId response = None \/ chatId response = Some EmptyString ->
       completion_id result = util_uuid (uuids_drawn w) /\
       uuids_drawn (createCompletionV2 model messages token w).2
         = S (uuids_drawn w)) /\
    created result = util_unixTimestamp (clock_reads w) /\
    clock_reads (createCompletionV2 model messages token w).2 = S (clock_reads w).
Proof.
  intros Hjwt Htext Hok.
  rewrite (createCompletionV2_run model messages token w text Hjwt Htext), Hok.
  run_M.
  destruct (chatId response) as [[|c id]|]; simpl;
    (eexists; split; [reflexivity |]); simpl.
  - split; [intros id [= <-] Hne; now elim Hne |].
    split; [intros _; now split |]. now split.
  - split; [intros id' [= <-] _; now split |].
    split; [intros [H | H]; discriminate |]. now split.
  - split; [intros id H; discriminate |].
    split; [intros _; now split |]. now split.
Qed.

(** X12. A completion that is returned echoes the requested model, is
    tagged "chat.completion", and holds exactly one choice: index 0, role
    "assistant", the text of the backend as content, finish reason "stop".
    It is returned only for a structured credential, after exactly one
    client was constructed and exactly one [chatText] call was made. *)
Theorem completion_shape
    (model : string) (messages : list JSValue) (token : string) (w : World)
    (result : CompletionResult) :
  (createCompletionV2 model messages token w).1 = Ok result ->
  detectTokenType token = Ok jwt /\
  completion_model result = model /\
  completion_object result = "chat.completion" /\
  (exists (text : string) (response : ChatTextResponse),
     lastMessageContent messages = Ok text /\
     rpc_chatText (request_config token) text (request_options model)
       = Ok response /\
     choices result =
       [ {| index := 0;
            message := {| role := "assistant";
                          message_content := response_text response |};
            finish_reason := "stop" |} ] /\
     rpc_calls (createCompletionV2 model messages token w).2
       = rpc_calls w
         ++ [Call_chatText (request_config token) text (request_options model)]) /\
  rpc_clients (createCompletionV2 model messages token w).2
    = rpc_clients w ++ [request_config token].
Proof.
  intros Hrun.
  destruct (detectTokenType_cases token) as [(_ & _ & Hjwt) | (_ & Href)].
  2: { exfalso. revert Hrun. unfold createCompletionV2. run_M.
       rewrite Href. simpl. discriminate. }
  destruct (lastMessageContent messages) as [text|e] eqn:Htext.
  2: { exfalso. revert Hrun. unfold createCompletionV2. run_M.
       rewrite Hjwt, Htext. simpl. discriminate. }
  revert Hrun.
  rewrite (createCompletionV2_run model messages token w text Hjwt Htext).
  destruct (rpc_chatText (request_config token) text (request_options model))
    as [response|e] eqn:Hresponse; [| discriminate].
  run_M.
  destruct (truthy_optional (chatId response)); simpl; intros [= <-]; simpl;
    (split; [exact Hjwt |]); repeat split; try reflexivity;
    exists text, response; now repeat split.
Qed.

End EntryPointProperties.

(** ** The stream *)

Section StreamProperties.

Context `{P : Platform} `{C : Collaborators}.

Ltac run_M :=
  unfold mbind, M_bind, mret, M_ret, lift, throw, try_catch_M, write_log,
    new_ConnectRPCClient, client_chatText, client_chat, record_call,
    consume_event, uuid, unixTimestamp.

(** The loop of the controller writes the frames of [stream_frames], reads
    the events up to the first one marked done, and draws one identifier and
    one timestamp for each chunk. *)
Lemma for_of_frames (model : string) (events : list ConnectMessage) :
  forall (stream : PassThrough) (w : World),
    for_of_connectMessages model events stream w =
      (Ok {| written := written stream
                        ++ stream_frames model (uuids_drawn w) (clock_reads w) events;
             state := state stream |},
       {| log := log w;
          rpc_clients := rpc_clients w;
          rpc_calls := rpc_calls w;
          events_consumed := events_consumed w + length (events_until_done events);
          uuids_drawn := uuids_drawn w
            + length (omap frame_chunk (stream_frames model (uuids_drawn w)
                                   (clock_reads w) events));
          clock_reads := clock_reads w
            + length (omap frame_chunk (stream_frames model (uuids_drawn w)
                                   (clock_reads w) events)) |}).
Proof.
  induction events as [|msg events IH]; intros [frames st] w.
  - simpl. run_M. rewrite app_nil_r, !Nat.add_0_r. now destruct w.
  - destruct msg as [b d].
    destruct b as [[[[c]|]]|]; [destruct (JSString.truthy c) eqn:Hc | |];
      destruct d; simpl; run_M; unfold event_text; simpl; rewrite ?Hc; simpl;
      rewrite ?IH; simpl; unfold stream_write, content_chunk, terminal_chunk;
      simpl; rewrite <- ?app_assoc, ?Nat.add_0_r, ?Nat.add_1_r; simpl;
      rewrite <- ?plus_n_Sm, ?Nat.add_0_r; reflexivity.
Qed.

Lemma stream_frames_text (model : string) (events : list ConnectMessage) :
  forall u c : nat,
    omap frame_text (stream_frames model u c events)
      = omap event_text (events_until_done events).
Proof.
  induction events as [|msg events IH]; intros u c; [reflexivity |].
  simpl. destruct (done msg); simpl;
    destruct (event_text msg) as [t|] eqn:Ht; simpl; rewrite ?Ht, ?IH;
    reflexivity.
Qed.

Lemma stream_frames_draws (model : string) (events : list ConnectMessage) :
  forall u c : nat,
    chunk_id <$> omap frame_chunk (stream_frames model u c events)
      = util_uuid <$> seq u (length (omap frame_chunk (stream_frames model u c events))) /\
    chunk_created <$> omap frame_chunk (stream_frames model u c events)
      = util_unixTimestamp
          <$> seq c (length (omap frame_chunk (stream_frames model u c events))) /\
    Forall (fun ch => chunk_model ch = model /\
                      chunk_object ch = "chat.completion.chunk")
           (omap frame_chunk (stream_frames model u c events)).
Proof.
  induction events as [|msg events IH]; intros u c;
    [simpl; repeat split; constructor |].
  simpl. destruct (event_text msg) as [t|]; destruct (done msg); simpl;
    rewrite ?Nat.add_0_r, ?Nat.add_1_r.
  - repeat split; repeat constructor.
  - destruct (IH (S u) (S c)) as (Hids & Hstamps & Hall).
    split; [exact (f_equal (cons (util_uuid u)) Hids) |].
    split; [exact (f_equal (cons (util_unixTimestamp c)) Hstamps) |].
    now constructor.
  - repeat split; repeat constructor.
  - apply IH.
Qed.

(** The streaming entry point on a structured credential with a readable
    message, whatever the backend answers. *)
Lemma createCompletionStreamV2_outcome (model : string) (messages : list JSValue)
    (token : string) (w : World) (text : string) :
  detectTokenType token = Ok jwt ->
  lastMessageContent messages = Ok text ->
  createCompletionStreamV2 model messages token w =
    match rpc_chat (request_config token) text (request_options model) with
    | Ok events =>
        match for_of_connectMessages model events new_PassThrough
                (world_at_chat model token text w) with
        | (Ok out, w') => (Ok (stream_end out), w')
        | (Throw e, w') =>
            (Ok (stream_destroy new_PassThrough e),
             (write_log (Logger_error e) w').2)
        end
    | Throw e =>
        (Ok (stream_destroy new_PassThrough e),
         (write_log (Logger_error e) (world_at_chat model token text w)).2)
    end.
Proof.
  intros Hjwt Htext.
  destruct (reader_returns token) as (Hd & Hs & Hu).
  unfold createCompletionStreamV2. run_M.
  rewrite Hjwt, Htext, Hd, Hs, Hu. simpl.
  fold (request_config token). fold (request_options model).
  fold (world_at_chat model token text w).
  destruct (rpc_chat (request_config token) text (request_options model))
    as [events|e]; simpl; [| reflexivity].
  destruct (for_of_connectMessages model events new_PassThrough
              (world_at_chat model token text w)) as [[out|e] w']; reflexivity.
Qed.

(** X13. Past the credential gate and the text extraction the streaming
    entry point never fails: it returns a stream that is closed in either
    case, ended when [client.chat] resolves and destroyed with the error of
    the backend, nothing written and no event read, when it rejects; the
    error is logged. *)
Theorem stream_is_always_closed
    (model : string) (messages : list JSValue) (token : string) (w : World)
    (text : string) :
  detectTokenType token = Ok jwt ->
  lastMessageContent messages = Ok text ->
  exists stream : PassThrough,
    (createCompletionStreamV2 model messages token w).1 = Ok stream /\
    state stream <> Flowing /\
    (forall events,
       rpc_chat (request_config token) text (request_options model) = Ok events ->
       state stream = Ended) /\
    (forall e,
       rpc_chat (request_config token) text (request_options model) = Throw e ->
       stream = {| written := []; state := Destroyed e |} /\
       events_consumed (createCompletionStreamV2 model messages token w).2
         = events_consumed w /\
       log (createCompletionStreamV2 model messages token w).2
         = log (world_at_chat model token text w) ++ [Logger_error e]).
Proof.
  intros Hjwt Htext.
  rewrite (createCompletionStreamV2_outcome model messages token w text Hjwt Htext).
  destruct (rpc_chat (request_config token) text (request_options model))
    as [events|e].
  - rewrite for_of_frames. eexists. split; [reflexivity |]. simpl.
    repeat split; try discriminate.
  - eexists. split; [reflexivity |]. simpl.
    split; [discriminate |]. split; [discriminate |].
    intros e' [= <-]. now repeat split.
Qed.

(** X14. The stream carries the texts of the backend in arrival order,
    none dropped, none repeated: the texts of its chunks are the non-empty
    texts of the events up to and including the first one marked done, and
    exactly those events are read. *)
Theorem stream_preserves_order
    (model : string) (messages : list JSValue) (token : string) (w : World)
    (text : string) (events : list ConnectMessage) :
  detectTokenType token = Ok jwt ->
  lastMessageContent messages = Ok text ->
  rpc_chat (request_config token) text (request_options model) = Ok events ->
  exists stream : PassThrough,
    (createCompletionStreamV2 model messages token w).1 = Ok stream /\
    omap frame_text (written stream)
      = omap event_text (events_until_done events) /\
    events_consumed (createCompletionStreamV2 model messages token w).2
      = events_consumed w + length (events_until_done events).
Proof.
  intros Hjwt Htext Hchat.
  rewrite (createCompletionStreamV2_outcome model messages token w text Hjwt Htext),
    Hchat, for_of_frames.
  eexists. split; [reflexivity |]. simpl.
  split; [apply stream_frames_text | reflexivity].
Qed.

(** X15. Every chunk of the stream, the terminal one included, carries the
    requested model, the tag "chat.completion.chunk" and an identifier and a
    timestamp of its own: the identifiers are consecutive draws of
    [util.uuid] and the timestamps consecutive reads of
    [util.unixTimestamp], in the order of the chunks, so with a generator
    that never repeats itself no two chunks share an identifier. *)
Theorem stream_chunks_are_stamped
    (model : string) (messages : list JSValue) (token : string) (w : World)
    (text : string) (events : list ConnectMessage) :
  detectTokenType token = Ok jwt ->
  lastMessageContent messages = Ok text ->
  rpc_chat (request_config token) text (request_options model) = Ok events ->
  exists stream : PassThrough,
    (createCompletionStreamV2 model messages token w).1 = Ok stream /\
    chunk_id <$> omap frame_chunk (written stream)
      = util_uuid <$> seq (uuids_drawn w) (length (omap frame_chunk (written stream))) /\
    chunk_created <$> omap frame_chunk (written stream)
      = util_unixTimestamp
          <$> seq (clock_reads w) (length (omap frame_chunk (written stream))) /\
    Forall (fun ch => chunk_model ch = model /\
                      chunk_object ch = "chat.completion.chunk")
           (omap frame_chunk (written stream)) /\
    ((forall i j, util_uuid i = util_uuid j -> i = j) ->
     NoDup (chunk_id <$> omap frame_chunk (written stream))).
Proof.
  intros Hjwt Htext Hchat.
  rewrite (createCompletionStreamV2_outcome model messages token w text Hjwt Htext),
    Hchat, for_of_frames.
  eexists. split; [reflexivity |]. simpl.
  destruct (stream_frames_draws model events (uuids_drawn w) (clock_reads w))
    as (Hids & Hstamps & Hall).
  repeat split; try assumption.
  intros Hinj. rewrite Hids.
  assert (Huuid : Inj (=) (=) util_uuid) by exact Hinj.
  apply (NoDup_fmap_2 util_uuid). apply NoDup_seq.
Qed.

End StreamProperties.

(** ** The further properties on concrete requests *)

Lemma lastMessageContent_raises_witness :
  @lastMessageContent Node.platform [] = Throw TypeError /\
  @lastMessageContent Node.platform
    [user_message
       (JArray [JObject [("type", JString "text"); ("text", JString "a")];
                JObject [("type", JString "text");
                         ("text", JObject [("toString", JNull)])]])]
    = Throw TypeError.
Proof.
  split.
  - apply (proj2 (@lastMessageContent_raises Node.platform [] TypeError)).
    left. split; [reflexivity | left; reflexivity].
  - apply (proj2 (@lastMessageContent_raises Node.platform _ TypeError)).
    right.
    exists (user_message
              (JArray [JObject [("type", JString "text"); ("text", JString "a")];
                       JObject [("type", JString "text");
                                ("text", JObject [("toString", JNull)])]])),
           [JObject [("type", JString "text"); ("text", JString "a")];
            JObject [("type", JString "text");
                     ("text", JObject [("toString", JNull)])]],
           [JObject [("type", JString "text"); ("text", JString "a")]],
           (JObject [("type", JString "text");
                     ("text", JObject [("toString", JNull)])]),
           [].
    repeat split; try reflexivity.
    + repeat constructor.
    + constructor; [| constructor]. exists "a". reflexivity.
Defined.

Lemma unreadable_message_stops_entry_points_witness :
  (@createCompletionV2 Node.platform Scripted.with_done "kimi-k2.5" []
     Scripted.access_token initial_world).1 = Throw TypeError /\
  (@createCompletionStreamV2 Node.platform Scripted.with_done "kimi-k2.5" []
     Scripted.access_token initial_world).1 = Throw TypeError /\
  rpc_clients
    (@createCompletionStreamV2 Node.platform Scripted.with_done "kimi-k2.5" []
       Scripted.access_token initial_world).2 = [].
Proof.
  assert (Hjwt : @detectTokenType Node.platform Scripted.access_token = Ok jwt)
    by (vm_compute; reflexivity).
  destruct (@unreadable_message_stops_entry_points Node.platform Scripted.with_done
              "kimi-k2.5" [] Scripted.access_token initial_world TypeError
              Hjwt eq_refl) as [(H1 & _ & _) (H2 & H3 & _)].
  repeat split; assumption.
Defined.

Lemma backend_failure_propagates_witness :
  (@createCompletionV2 Node.platform Failing.backend "kimi-k2.5"
     [user_message (JString "Hi")] Scripted.access_token initial_world).1
    = Throw Failing.unavailable /\
  length
    (rpc_calls
       (@createCompletionV2 Node.platform Failing.backend "kimi-k2.5"
          [user_message (JString "Hi")] Scripted.access_token initial_world).2)
    = 1.
Proof.
  assert (Hjwt : @detectTokenType Node.platform Scripted.access_token = Ok jwt)
    by (vm_compute; reflexivity).
  destruct (@backend_failure_propagates Node.platform Failing.backend "kimi-k2.5"
              [user_message (JString "Hi")] Scripted.access_token initial_world
              "Hi" Failing.unavailable Hjwt eq_refl eq_refl)
    as (H1 & _ & H2 & _).
  split; [exact H1 |]. rewrite H2. reflexivity.
Defined.

Lemma completion_identifier_witness :
  (exists result : CompletionResult,
     (@createCompletionV2 Node.platform Scripted.with_done "kimi-k2.5"
        [user_message (JString "Hi")] Scripted.access_token initial_world).1
       = Ok result /\
     completion_id result = "chat-42") /\
  (exists result : CompletionResult,
     (@createCompletionV2 Node.platform Failing.anonymous "kimi-k2.5"
        [user_message (JString "Hi")] Scripted.access_token initial_world).1
       = Ok result /\
     completion_id result = "chatcmpl-0").
Proof.
  assert (Hjwt : @detectTokenType Node.platform Scripted.access_token = Ok jwt)
    by (vm_compute; reflexivity).
  split.
  - destruct (@completion_identifier Node.platform Scripted.with_done "kimi-k2.5"
                [user_message (JString "Hi")] Scripted.access_token initial_world
                "Hi" Scripted.reply Hjwt eq_refl eq_refl)
      as (result & Hrun & Hsome & _).
    exists result. split; [exact Hrun |].
    apply (Hsome "chat-42" eq_refl). discriminate.
  - destruct (@completion_identifier Node.platform Failing.anonymous "kimi-k2.5"
                [user_message (JString "Hi")] Scripted.access_token initial_world
                "Hi" {| chatId := None; response_text := "Hello!" |}
                Hjwt eq_refl eq_refl)
      as (result & Hrun & _ & Hnone & _).
    exists result. split; [exact Hrun |].
    apply Hnone. left. reflexivity.
Defined.

Lemma completion_shape_witness :
  exists result : CompletionResult,
    (@createCompletionV2 Node.platform Scripted.with_done "kimi-k2.5"
       [user_message (JString "Hi")] Scripted.access_token initial_world).1
      = Ok result /\
    completion_model result = "kimi-k2.5" /\
    completion_object result = "chat.completion".
Proof.
  eexists. split; [vm_compute; reflexivity |].
  refine (let H := @completion_shape Node.platform Scripted.with_done "kimi-k2.5"
                     [user_message (JString "Hi")] Scripted.access_token
                     initial_world _ _ in
          conj (proj1 (proj2 H)) (proj1 (proj2 (proj2 H)))).
  vm_compute. reflexivity.
Defined.

Lemma stream_is_always_closed_witness :
  exists stream : PassThrough,
    (@createCompletionStreamV2 Node.platform Failing.backend "kimi-k2.5"
       [user_message (JString "Hi")] Scripted.access_token initial_world).1
      = Ok stream /\
    stream = {| written := []; state := Destroyed Failing.unavailable |}.
Proof.
  assert (Hjwt : @detectTokenType Node.platform Scripted.access_token = Ok jwt)
    by (vm_compute; reflexivity).
  destruct (@stream_is_always_closed Node.platform Failing.backend "kimi-k2.5"
              [user_message (JString "Hi")] Scripted.access_token initial_world
              "Hi" Hjwt eq_refl) as (stream & Hrun & _ & _ & Hfail).
  exists stream. split; [exact Hrun |].
  exact (proj1 (Hfail Failing.unavailable eq_refl)).
Defined.

Lemma stream_preserves_order_witness :
  exists stream : PassThrough,
    (@createCompletionStreamV2 Node.platform Scripted.with_done "kimi-k2.5"
       [user_message (JString "Hi")] Scripted.access_token initial_world).1
      = Ok stream /\
    omap frame_text (written stream) = ["Hel"; "lo"].
Proof.
  assert (Hjwt : @detectTokenType Node.platform Scripted.access_token = Ok jwt)
    by (vm_compute; reflexivity).
  destruct (@stream_preserves_order Node.platform Scripted.with_done "kimi-k2.5"
              [user_message (JString "Hi")] Scripted.access_token initial_world
              "Hi" _ Hjwt eq_refl eq_refl) as (stream & Hrun & Htexts & _).
  exists stream. split; [exact Hrun | exact Htexts].
Defined.

Lemma stream_chunks_are_stamped_witness :
  exists stream : PassThrough,
    (@createCompletionStreamV2 Node.platform Scripted.with_done "kimi-k2.5"
       [user_message (JString "Hi")] Scripted.access_token initial_world).1
      = Ok stream /\
    chunk_id <$> omap frame_chunk (written stream)
      = @util_uuid Scripted.with_done
          <$> seq 0 (length (omap frame_chunk (written stream))).
Proof.
  assert (Hjwt : @detectTokenType Node.platform Scripted.access_token = Ok jwt)
    by (vm_compute; reflexivity).
  destruct (@stream_chunks_are_stamped Node.platform Scripted.with_done "kimi-k2.5"
              [user_message (JString "Hi")] Scripted.access_token initial_world
              "Hi" _ Hjwt eq_refl eq_refl) as (stream & Hrun & Hids & _).
  exists stream. split; [exact Hrun | exact Hids].
Defined.
